(** * otah: OTA manifests from iOS .ipa archives

    A shallow embedding of [otah.py] (the [Manifest] class, the name
    detection [_parse_app_name] with its pattern [RE_PLIST_PATH], and the
    [with Manifest(...)] block of [_main]) together with the parts of the
    Python library the module calls: the backtracking matcher behind
    [re.match], [zipfile.ZipFile] as a handle on an ordered list of
    entries, the XML writer of [plistlib] that [plistlib.dumps] runs when
    no format is given, and the XML reader of [plistlib] for what that
    writer produces. *)

From Stdlib Require Import List String Ascii NArith ZArith Lia Bool.

From Stdlib.Strings Require Import Byte.

From Stdlib Require Import Zify Decimal DecimalString DecimalPos DecimalZ.

Import ListNotations.

Local Open Scope list_scope.

Set Warnings "-register-all".

(** ** Text and bytes *)

(** A Python [str] is a sequence of code points; [bytes] is a sequence of
    octets. *)
Definition char := N.

Definition str := list char.

Definition bytes := list byte.

(** A [str] literal, written as a Rocq string of ASCII characters. *)
Definition lit (s : string) : str :=
  map N_of_ascii (list_ascii_of_string s).

(** [a == b] *)
Fixpoint str_eqb (a b : str) : bool :=
  match a, b with
  | [], [] => true
  | x :: a', y :: b' => (x =? y)%N && str_eqb a' b'
  | _, _ => false
  end.

(** Truth value of a [str]: the empty string is false. *)
Definition truthy (s : str) : bool :=
  match s with [] => false | _ :: _ => true end.

(** ** Exceptions *)

(** The exceptions that reach a caller of the module.  [RuntimeError] is
    the one the module raises itself; the others come out of the library
    calls it makes and pass through unchanged.  [LibraryError] stands for
    an exception of a library call that the model takes as given (opening
    the archive file, decoding [Info.plist]), by class name. *)
Inductive exn : Type :=
| RuntimeError (msg : str)
| KeyError (arg : str)
| TypeError
| ValueError (msg : string)
| OverflowError (value : Z)
| UnicodeEncodeError
| IndexError
| ExpatError
| LibraryError (cls : string) (msg : str).

(** ** Property-list values *)

(** Calendar fields of a [datetime.datetime]. *)
Record datetime : Type := mkDate {
  year : nat; month : nat; day : nat;
  hour : nat; minute : nat; second : nat
}.

(** What [plistlib.load] can hand back.  A [float] is carried by its
    [repr] text.  A [dict] keeps its items in insertion order. *)
Inductive plist : Type :=
| PStr (s : str)
| PBool (b : bool)
| PInt (n : Z)
| PReal (repr : str)
| PData (d : bytes)
| PDate (d : datetime)
| PUid (n : Z)
| PNone
| PList (l : list plist)
| PDict (d : list (str * plist)).

Fixpoint assoc {A : Type} (key : str) (d : list (str * A)) : option A :=
  match d with
  | [] => None
  | (k, v) :: d' => if str_eqb k key then Some v else assoc key d'
  end.

(** [value[key]] with a [str] key: a mapping answers or raises [KeyError]
    with the key as its argument; every other value raises [TypeError]. *)
Definition getitem (value : plist) (key : str) : exn + plist :=
  match value with
  | PDict d =>
      match assoc key d with
      | Some v => inr v
      | None => inl (KeyError key)
      end
  | _ => inl TypeError
  end.

(** ** The error monad of the pure library functions *)

Definition ebind {A B : Type} (c : exn + A) (k : A -> exn + B) : exn + B :=
  match c with
  | inl e => inl e
  | inr x => k x
  end.

Notation "x <~ c ;; k" := (ebind c (fun x => k))
  (at level 61, c at next level, right associativity).

(** ** UTF-8 *)

Definition byte_of (n : N) : byte :=
  match Byte.of_N n with
  | Some b => b
  | None => x00
  end.

(** A [bytes] literal of ASCII characters. *)
Definition blit (s : string) : bytes :=
  map byte_of_ascii (list_ascii_of_string s).

Definition is_surrogate (c : char) : bool :=
  ((55296 <=? c) && (c <=? 57343))%N.

(** The octets of one code point; [None] for a surrogate and for a number
    that is no code point. *)
Definition utf8_char (c : char) : option bytes :=
  (if c <? 128 then Some [byte_of c]
   else if c <? 2048 then
     Some [byte_of (192 + c / 64); byte_of (128 + c mod 64)]
   else if c <? 65536 then
     if is_surrogate c then None
     else Some [byte_of (224 + c / 4096); byte_of (128 + (c / 64) mod 64);
                byte_of (128 + c mod 64)]
   else if c <? 1114112 then
     Some [byte_of (240 + c / 262144); byte_of (128 + (c / 4096) mod 64);
           byte_of (128 + (c / 64) mod 64); byte_of (128 + c mod 64)]
   else None)%N.

(** [s.encode('utf-8')] *)
Fixpoint encode_utf8 (s : str) : exn + bytes :=
  match s with
  | [] => inr []
  | c :: s' =>
      match utf8_char c with
      | None => inl UnicodeEncodeError
      | Some b => rest <~ encode_utf8 s' ;; inr (b ++ rest)
      end
  end.

(** ** plistlib: the XML writer *)

Definition dquote : string := String (ascii_of_N 34) EmptyString.

(** [PLISTHEADER] *)
Definition PLISTHEADER : bytes :=
  blit ("<?xml version=" ++ dquote ++ "1.0" ++ dquote ++ " encoding="
        ++ dquote ++ "UTF-8" ++ dquote ++ "?>")%string
  ++ [x0a]
  ++ blit ("<!DOCTYPE plist PUBLIC " ++ dquote
           ++ "-//Apple//DTD PLIST 1.0//EN" ++ dquote ++ " " ++ dquote
           ++ "http://www.apple.com/DTDs/PropertyList-1.0.dtd" ++ dquote
           ++ ">")%string
  ++ [x0a].

(** [_controlCharPat]: the control characters other than tab, line feed
    and carriage return. *)
Definition is_control (c : char) : bool :=
  ((c <? 32) && negb (c =? 9) && negb (c =? 10) && negb (c =? 13))%N.

(** [text.replace("\r\n", "\n")] *)
Fixpoint replace_crlf (s : str) : str :=
  match s with
  | [] => []
  | c :: s' =>
      match s' with
      | d :: s'' =>
          if ((c =? 13) && (d =? 10))%N then 10%N :: replace_crlf s''
          else c :: replace_crlf s'
      | [] => [c]
      end
  end.

(** [text.replace(old, new)] for a one-character [old]. *)
Definition replace_char (old : char) (new : str) (s : str) : str :=
  flat_map (fun c => if (c =? old)%N then new else [c]) s.

(** [_escape] *)
Definition _escape (text : str) : exn + str :=
  if existsb is_control text then
    inl (ValueError
           "strings can't contain control characters; use bytes instead")
  else
    let text := replace_crlf text in
    let text := replace_char 13%N [10%N] text in
    let text := replace_char 38%N (lit "&amp;") text in
    let text := replace_char 60%N (lit "&lt;") text in
    let text := replace_char 62%N (lit "&gt;") text in
    inr text.

(** [_DumbXMLWriter.writeln] at indentation [level], for a [str] line:
    tabs, the line in UTF-8, a line feed. *)
Definition writeln (level : nat) (line : str) : exn + bytes :=
  match line with
  | [] => inr [x0a]
  | _ :: _ =>
      enc <~ encode_utf8 line ;;
      inr (repeat x09 level ++ enc ++ [x0a])
  end.

(** [writeln] for a line that is already [bytes]. *)
Definition writeln_bytes (level : nat) (line : bytes) : bytes :=
  match line with
  | [] => [x0a]
  | _ :: _ => repeat x09 level ++ line ++ [x0a]
  end.

(** [_DumbXMLWriter.simple_element] *)
Definition simple_element (level : nat) (element : string)
  (value : option str) : exn + bytes :=
  match value with
  | Some v =>
      v' <~ _escape v ;;
      writeln level
        (lit "<" ++ lit element ++ lit ">" ++ v' ++ lit "</" ++ lit element
           ++ lit ">")
  | None => writeln level (lit "<" ++ lit element ++ lit "/>")
  end.

(** [begin_element] and [end_element]: the caller adjusts the level. *)
Definition begin_element (level : nat) (element : string) : exn + bytes :=
  writeln level (lit "<" ++ lit element ++ lit ">").

Definition end_element (level : nat) (element : string) : exn + bytes :=
  writeln level (lit "</" ++ lit element ++ lit ">").

(** ["%d" % n] *)
Definition format_d (n : Z) : str :=
  lit (NilZero.string_of_int (Z.to_int n)).

(** ["%0wd" % n] for a natural number. *)
Definition format_0d (width : nat) (n : nat) : str :=
  let digits := lit (NilZero.string_of_uint (Nat.to_uint n)) in
  repeat 48%N (width - List.length digits) ++ digits.

(** [_date_to_string] *)
Definition _date_to_string (d : datetime) : str :=
  format_0d 4 (year d) ++ lit "-" ++ format_0d 2 (month d) ++ lit "-"
  ++ format_0d 2 (day d) ++ lit "T" ++ format_0d 2 (hour d) ++ lit ":"
  ++ format_0d 2 (minute d) ++ lit ":" ++ format_0d 2 (second d) ++ lit "Z".

(** The base64 alphabet. *)
Definition b64_digit (n : N) : byte :=
  (if n <? 26 then byte_of (65 + n)
   else if n <? 52 then byte_of (97 + (n - 26))
   else if n <? 62 then byte_of (48 + (n - 52))
   else if n =? 62 then x2b
   else x2f)%N.

(** [binascii.b2a_base64] without its final line feed. *)
Fixpoint b64_encode (data : bytes) : bytes :=
  match data with
  | [] => []
  | [a] =>
      let a := Byte.to_N a in
      [b64_digit (a / 4); b64_digit ((a mod 4) * 16); x3d; x3d]%N
  | [a; b] =>
      let a := Byte.to_N a in
      let b := Byte.to_N b in
      [b64_digit (a / 4); b64_digit ((a mod 4) * 16 + b / 16);
       b64_digit ((b mod 16) * 4); x3d]%N
  | a :: b :: c :: rest =>
      let a := Byte.to_N a in
      let b := Byte.to_N b in
      let c := Byte.to_N c in
      [b64_digit (a / 4); b64_digit ((a mod 4) * 16 + b / 16);
       b64_digit ((b mod 16) * 4 + c / 64); b64_digit (c mod 64)]%N
      ++ b64_encode rest
  end.

(** [_encode_base64(s, maxlinelength).split(b"\n")] with the empty
    pieces dropped: one base64 line for every [maxbinsize] octets. *)
Fixpoint base64_lines (fuel : nat) (maxbinsize : nat) (s : bytes)
  : list bytes :=
  match fuel, s with
  | _, [] => []
  | O, _ => []
  | S fuel', _ :: _ =>
      b64_encode (firstn maxbinsize s)
      :: base64_lines fuel' maxbinsize (skipn maxbinsize s)
  end.

(** [_PlistWriter.write_bytes] *)
Definition write_bytes (level : nat) (data : bytes) : exn + bytes :=
  open <~ begin_element level "data" ;;
  let maxlinelength := Nat.max 16 (76 - 8 * level) in
  let maxbinsize := (maxlinelength / 4) * 3 in
  let lines := base64_lines (List.length data) maxbinsize data in
  close <~ end_element level "data" ;;
  inr (open ++ flat_map (writeln_bytes level) lines ++ close).

(** Order of two [str] values, as Python compares them. *)
Fixpoint str_ltb (a b : str) : bool :=
  match a, b with
  | [], [] => false
  | [], _ :: _ => true
  | _ :: _, [] => false
  | x :: a', y :: b' => (x <? y)%N || ((x =? y)%N && str_ltb a' b')
  end.

Fixpoint insert_by_key {A : Type} (item : str * A) (l : list (str * A))
  : list (str * A) :=
  match l with
  | [] => [item]
  | x :: l' =>
      if str_ltb (fst item) (fst x) then item :: l
      else x :: insert_by_key item l'
  end.

(** [sorted(d.items())] for items with distinct keys. *)
Definition sorted_items {A : Type} (l : list (str * A)) : list (str * A) :=
  fold_right insert_by_key [] l.

(** The loop of [write_dict] over items whose values are rendered
    already: the key element, then the value. *)
Fixpoint write_items (level : nat) (items : list (str * (exn + bytes)))
  : exn + bytes :=
  match items with
  | [] => inr []
  | (key, rendered) :: items' =>
      k <~ simple_element level "key" (Some key) ;;
      v <~ rendered ;;
      rest <~ write_items level items' ;;
      inr (k ++ v ++ rest)
  end.

(** The loop of [write_array] over values that are rendered already. *)
Fixpoint write_each (items : list (exn + bytes)) : exn + bytes :=
  match items with
  | [] => inr []
  | rendered :: items' =>
      v <~ rendered ;;
      rest <~ write_each items' ;;
      inr (v ++ rest)
  end.

(** [_PlistWriter.write_value], with [write_dict] and [write_array] in
    line.  [UID] and [None] are of no type the XML writer knows. *)
Fixpoint write_value (sort_keys : bool) (level : nat) (value : plist)
  {struct value} : exn + bytes :=
  match value with
  | PStr s => simple_element level "string" (Some s)
  | PBool true => simple_element level "true" None
  | PBool false => simple_element level "false" None
  | PInt n =>
      if ((- 2 ^ 63 <=? n) && (n <? 2 ^ 64))%Z
      then simple_element level "integer" (Some (format_d n))
      else inl (OverflowError n)
  | PReal repr => simple_element level "real" (Some repr)
  | PDict d =>
      match d with
      | [] => simple_element level "dict" None
      | _ :: _ =>
          let rendered :=
            map (fun item =>
                   (fst item, write_value sort_keys (S level) (snd item))) d in
          let items := if sort_keys then sorted_items rendered else rendered in
          open <~ begin_element level "dict" ;;
          body <~ write_items (S level) items ;;
          close <~ end_element level "dict" ;;
          inr (open ++ body ++ close)
      end
  | PData data => write_bytes level data
  | PDate d => simple_element level "date" (Some (_date_to_string d))
  | PList array =>
      match array with
      | [] => simple_element level "array" None
      | _ :: _ =>
          open <~ begin_element level "array" ;;
          body <~ write_each (map (write_value sort_keys (S level)) array) ;;
          close <~ end_element level "array" ;;
          inr (open ++ body ++ close)
      end
  | PUid _ => inl TypeError
  | PNone => inl TypeError
  end.

(** [_PlistWriter.write] after the header. *)
Definition plist_write (sort_keys : bool) (value : plist) : exn + bytes :=
  open <~ writeln 0 (lit ("<plist version=" ++ dquote ++ "1.0" ++ dquote
                          ++ ">")%string) ;;
  body <~ write_value sort_keys 0 value ;;
  close <~ writeln 0 (lit "</plist>") ;;
  inr (open ++ body ++ close).

(** [plistlib.dumps(value, sort_keys=...)]: the format defaults to
    [FMT_XML]. *)
Definition dumps (value : plist) (sort_keys : bool) : exn + bytes :=
  doc <~ plist_write sort_keys value ;;
  inr (PLISTHEADER ++ doc).

(** ** plistlib: reading XML *)

(** The reader of XML property lists, for the documents the writer above
    produces and their like: the XML declaration and the document type are
    passed over, elements carry no attributes the reader looks at,
    character data may hold the five predefined entities, and the elements
    [real], [data] and [date] are outside the model. *)

Definition is_continuation (n : N) : bool :=
  ((128 <=? n) && (n <? 192))%N.

(** [b.decode('utf-8')]: [None] for ill-formed input (stray or missing
    continuation octets, overlong forms, surrogates, numbers above the
    last code point). *)
Fixpoint decode_utf8 (b : bytes) : option str :=
  match b with
  | [] => Some []
  | b0 :: t0 =>
      let n0 := Byte.to_N b0 in
      if (n0 <? 128)%N then option_map (cons n0) (decode_utf8 t0)
      else
        match t0 with
        | [] => None
        | b1 :: t1 =>
            let n1 := Byte.to_N b1 in
            if negb (is_continuation n1) || (n0 <? 192)%N then None
            else if (n0 <? 224)%N then
              let c := ((n0 - 192) * 64 + (n1 - 128))%N in
              if (c <? 128)%N then None
              else option_map (cons c) (decode_utf8 t1)
            else
              match t1 with
              | [] => None
              | b2 :: t2 =>
                  let n2 := Byte.to_N b2 in
                  if negb (is_continuation n2) then None
                  else if (n0 <? 240)%N then
                    let c := ((n0 - 224) * 4096 + (n1 - 128) * 64
                              + (n2 - 128))%N in
                    if (c <? 2048)%N || is_surrogate c then None
                    else option_map (cons c) (decode_utf8 t2)
                  else
                    match t2 with
                    | [] => None
                    | b3 :: t3 =>
                        let n3 := Byte.to_N b3 in
                        if negb (is_continuation n3) || negb (n0 <? 248)%N
                        then None
                        else
                          let c := ((n0 - 240) * 262144 + (n1 - 128) * 4096
                                    + (n2 - 128) * 64 + (n3 - 128))%N in
                          if (c <? 65536)%N || negb (c <? 1114112)%N
                          then None
                          else option_map (cons c) (decode_utf8 t3)
                    end
              end
        end
  end.

(** A container under construction on the stack of [_PlistParser], with
    the key it goes under when its parent is a mapping. *)
Inductive frame : Type :=
| FDict (slot : option str) (items : list (str * plist))
| FArray (slot : option str) (items : list plist).

(** The state of [_PlistParser]: the open elements (expat checks that
    tags match), [stack], [current_key], [root] and [data]. *)
Record parser : Type := mkParser {
  p_open : list str;
  p_stack : list frame;
  p_key : option str;
  p_root : option plist;
  p_data : str
}.

(** [d[key] = value] on a mapping that keeps insertion order. *)
Fixpoint dict_set (key : str) (value : plist) (d : list (str * plist))
  : list (str * plist) :=
  match d with
  | [] => [(key, value)]
  | (k, v) :: d' =>
      if str_eqb k key then (k, value) :: d'
      else (k, v) :: dict_set key value d'
  end.

(** [_PlistParser.add_object] *)
Definition add_object (p : parser) (value : plist) : exn + parser :=
  match p_key p with
  | Some key =>
      match p_stack p with
      | FDict slot items :: st =>
          inr (mkParser (p_open p) (FDict slot (dict_set key value items) :: st)
                 None (p_root p) (p_data p))
      | FArray _ _ :: _ => inl (ValueError "unexpected element")
      | [] => inl IndexError
      end
  | None =>
      match p_stack p with
      | [] =>
          inr (mkParser (p_open p) [] None (Some value) (p_data p))
      | FArray slot items :: st =>
          inr (mkParser (p_open p) (FArray slot (items ++ [value]) :: st)
                 None (p_root p) (p_data p))
      | FDict _ _ :: _ => inl (ValueError "unexpected element")
      end
  end.

(** [begin_dict] and [begin_array]: the new container passes the checks
    of [add_object] and is pushed; it joins its parent, which does not
    change in between, when its element ends. *)
Definition begin_container (p : parser) (mk : option str -> frame)
  : exn + parser :=
  match p_key p, p_stack p with
  | Some key, FDict _ _ :: _ =>
      inr (mkParser (p_open p) (mk (Some key) :: p_stack p) None (p_root p)
             (p_data p))
  | Some _, FArray _ _ :: _ => inl (ValueError "unexpected element")
  | Some _, [] => inl IndexError
  | None, FDict _ _ :: _ => inl (ValueError "unexpected element")
  | None, _ =>
      inr (mkParser (p_open p) (mk None :: p_stack p) None (p_root p)
             (p_data p))
  end.

(** [self.stack.pop()] at the end of a container. *)
Definition end_container (p : parser) : exn + parser :=
  match p_stack p with
  | [] => inl IndexError
  | fr :: st =>
      let '(slot, value) :=
        match fr with
        | FDict slot items => (slot, PDict items)
        | FArray slot items => (slot, PList items)
        end in
      match slot, st with
      | Some key, FDict pslot items :: st' =>
          inr (mkParser (p_open p)
                 (FDict pslot (dict_set key value items) :: st')
                 (p_key p) (p_root p) (p_data p))
      | None, FArray pslot items :: st' =>
          inr (mkParser (p_open p) (FArray pslot (items ++ [value]) :: st')
                 (p_key p) (p_root p) (p_data p))
      | None, [] =>
          inr (mkParser (p_open p) [] (p_key p) (Some value) (p_data p))
      | _, _ => inl (ValueError "unexpected element")
      end
  end.

(** [get_data]: the text collected so far, and the state without it. *)
Definition get_data (p : parser) : str * parser :=
  (p_data p,
   mkParser (p_open p) (p_stack p) (p_key p) (p_root p) []).

(** [int(raw)] for an optional sign and decimal digits. *)
Definition parse_int (raw : str) : exn + Z :=
  let text := string_of_list_ascii (map ascii_of_N raw) in
  let digits :=
    match raw with
    | 43%N :: raw' => string_of_list_ascii (map ascii_of_N raw')
    | _ => text
    end in
  match NilZero.int_of_string digits with
  | Some d => inr (Z.of_int d)
  | None => inl (ValueError "invalid literal for int() with base 10")
  end.

(** [handle_begin_element] *)
Definition handle_begin_element (name : str) (p : parser) : exn + parser :=
  let p := mkParser (name :: p_open p) (p_stack p) (p_key p) (p_root p) [] in
  if str_eqb name (lit "dict") then
    begin_container p (fun slot => FDict slot [])
  else if str_eqb name (lit "array") then
    begin_container p (fun slot => FArray slot [])
  else inr p.

(** [handle_end_element], after expat's check that the tag closes the
    element that is open. *)
Definition handle_end_element (name : str) (p : parser) : exn + parser :=
  match p_open p with
  | top :: open' =>
      if str_eqb top name then
        let p := mkParser open' (p_stack p) (p_key p) (p_root p) (p_data p) in
        if str_eqb name (lit "dict") then
          if match p_key p with Some k => truthy k | None => false end
          then inl (ValueError "missing value for key")
          else end_container p
        else if str_eqb name (lit "array") then end_container p
        else if str_eqb name (lit "key") then
          if match p_key p with Some k => truthy k | None => false end
          then inl (ValueError "unexpected key")
          else
            match p_stack p with
            | [] => inl IndexError
            | FDict _ _ :: _ =>
                let '(text, p) := get_data p in
                inr (mkParser (p_open p) (p_stack p) (Some text) (p_root p)
                       (p_data p))
            | FArray _ _ :: _ => inl (ValueError "unexpected key")
            end
        else if str_eqb name (lit "true") then add_object p (PBool true)
        else if str_eqb name (lit "false") then add_object p (PBool false)
        else if str_eqb name (lit "string") then
          let '(text, p) := get_data p in add_object p (PStr text)
        else if str_eqb name (lit "integer") then
          let '(raw, p) := get_data p in
          n <~ parse_int raw ;; add_object p (PInt n)
        else if str_eqb name (lit "real") || str_eqb name (lit "data")
                || str_eqb name (lit "date")
        then inl (LibraryError "NotModelled" name)
        else inr p
      else inl ExpatError
  | [] => inl ExpatError
  end.

(** [handle_data] for one run of character data. *)
Definition deliver (text : bytes) (p : parser) : exn + parser :=
  match text with
  | [] => inr p
  | _ :: _ =>
      match decode_utf8 text with
      | Some t =>
          inr (mkParser (p_open p) (p_stack p) (p_key p) (p_root p)
                 (p_data p ++ t))
      | None => inl ExpatError
      end
  end.

(** The element name of a start tag: what stands before the first
    blank. *)
Fixpoint tag_name (tag : bytes) : bytes :=
  match tag with
  | [] => []
  | b :: tag' =>
      if (Byte.to_N b =? 32)%N || (Byte.to_N b =? 9)%N
         || (Byte.to_N b =? 10)%N
      then [] else b :: tag_name tag'
  end.

(** What stands between [<] and [>]. *)
Definition handle_tag (tag : bytes) (p : parser) : exn + parser :=
  match tag with
  | [] => inl ExpatError
  | b :: tag' =>
      if (Byte.to_N b =? 63)%N || (Byte.to_N b =? 33)%N then inr p
      else if (Byte.to_N b =? 47)%N then
        match decode_utf8 tag' with
        | Some name => handle_end_element name p
        | None => inl ExpatError
        end
      else
        let empty := (Byte.to_N (last tag x00) =? 47)%N in
        match decode_utf8 (tag_name (if empty then removelast tag else tag))
        with
        | Some name =>
            p' <~ handle_begin_element name p ;;
            if empty then handle_end_element name p' else inr p'
        | None => inl ExpatError
        end
  end.

(** The predefined entities. *)
Definition entity (name : bytes) : option byte :=
  let name := map Byte.to_N name in
  if str_eqb name (lit "amp") then Some x26
  else if str_eqb name (lit "lt") then Some x3c
  else if str_eqb name (lit "gt") then Some x3e
  else if str_eqb name (lit "quot") then Some x22
  else if str_eqb name (lit "apos") then Some x27
  else None.

(** Where the reader is in the text: in character data (with what is
    collected of the current run, and whether a carriage return was the
    last character), in an entity reference, or inside a tag. *)
Inductive lexer : Type :=
| InText (run : bytes) (after_cr : bool)
| InEntity (run : bytes) (name : bytes)
| InTag (tag : bytes).

(** The document, octet by octet: character data with line ends
    normalized and entities replaced goes to [handle_data] when a tag
    begins, and every tag to its handler. *)
Fixpoint feed (lx : lexer) (p : parser) (input : bytes) : exn + parser :=
  match input with
  | [] =>
      match lx with
      | InText run _ => deliver run p
      | _ => inl ExpatError
      end
  | b :: input' =>
      let n := Byte.to_N b in
      match lx with
      | InText run after_cr =>
          if (n =? 60)%N then
            p' <~ deliver run p ;; feed (InTag []) p' input'
          else if (n =? 38)%N then feed (InEntity run []) p input'
          else if (n =? 13)%N then feed (InText (run ++ [x0a]) true) p input'
          else if (n =? 10)%N && after_cr then feed (InText run false) p input'
          else feed (InText (run ++ [b]) false) p input'
      | InEntity run name =>
          if (n =? 59)%N then
            match entity name with
            | Some c => feed (InText (run ++ [c]) false) p input'
            | None => inl ExpatError
            end
          else feed (InEntity run (name ++ [b])) p input'
      | InTag tag =>
          if (n =? 62)%N then
            p' <~ handle_tag tag p ;; feed (InText [] false) p' input'
          else feed (InTag (tag ++ [b])) p input'
      end
  end.

(** [_PlistParser.parse]: the root object once the document has ended
    with every element closed. *)
Definition parse_xml (value : bytes) : exn + plist :=
  p <~ feed (InText [] false) (mkParser [] [] None None []) value ;;
  match p_open p with
  | [] =>
      match p_root p with
      | Some v => inr v
      | None => inr PNone
      end
  | _ :: _ => inl ExpatError
  end.

Fixpoint starts_with (prefix value : bytes) : bool :=
  match prefix, value with
  | [], _ => true
  | a :: prefix', b :: value' =>
      (Byte.to_N a =? Byte.to_N b)%N && starts_with prefix' value'
  | _ :: _, [] => false
  end.

(** [plistlib.loads(value)]: the format is detected from the first
    octets; [binary] stands for the reader of the binary format. *)
Definition loads (binary : bytes -> exn + plist) (value : bytes)
  : exn + plist :=
  if starts_with (blit "<?xml") value || starts_with (blit "<plist") value
  then parse_xml value
  else if starts_with (blit "bplist00") value then binary value
  else inl (LibraryError "InvalidFileException" (lit "Invalid file")).

(** ** Regular expressions: the fragment [RE_PLIST_PATH] is written in *)

Inductive charclass : Type :=
| CLit (c : char)
| CDot
| CWord.

Inductive regex : Type :=
| REmpty
| RChar (c : charclass)
| RPlus (c : charclass)
| RStar (c : charclass)
| ROpt (c : charclass)
| RGroup (i : nat) (r : regex)
| RCat (r1 r2 : regex).

Definition captures := list (nat * str).

Definition is_ascii_alnum (c : char) : bool :=
  ((48 <=? c) && (c <=? 57) || (65 <=? c) && (c <=? 90)
   || (97 <=? c) && (c <=? 122))%N.

(** [greedy p s k]: consume the longest run of characters satisfying [p]
    at the head of [s] and continue with [k]; when [k] fails, give one
    character back and try again. *)
Fixpoint greedy (p : char -> bool) (s : str) (k : str -> option captures)
  : option captures :=
  match s with
  | c :: s' =>
      if p c then
        match greedy p s' k with
        | Some m => Some m
        | None => k s
        end
      else k s
  | [] => k []
  end.

Fixpoint rlit (s : str) : regex :=
  match s with
  | [] => REmpty
  | c :: s' => RCat (RChar (CLit c)) (rlit s')
  end.

(** [m.group(i)]: the text the group captured last. *)
Fixpoint group (i : nat) (m : captures) : str :=
  match m with
  | [] => []
  | (j, s) :: m' => if Nat.eqb i j then s else group i m'
  end.

(** ** The world a conversion runs in *)

(** A [zipfile.ZipFile]: [fp] names its file handle in the world,
    [filelist] the entries (name, uncompressed content) in archive
    order. *)
Record ZipFile : Type := mkZipFile {
  fp : nat;
  filelist : list (str * bytes)
}.

(** [handles]: for every archive handle opened so far, whether it is still
    open.  [files]: the writable binary files, by number, with what has
    been written to each ([None] once closed).  [stdout]: what was
    printed. *)
Record World : Type := mkWorld {
  handles : list bool;
  files : list (option bytes);
  stdout : list bytes
}.

Definition M (A : Type) : Type := World -> (exn + A) * World.

Definition ret {A : Type} (x : A) : M A := fun w => (inr x, w).

Definition raise {A : Type} (e : exn) : M A := fun w => (inl e, w).

Definition bind {A B : Type} (c : M A) (k : A -> M B) : M B :=
  fun w =>
    match c w with
    | (inl e, w') => (inl e, w')
    | (inr x, w') => k x w'
    end.

Definition lift {A : Type} (r : exn + A) : M A := fun w => (r, w).

Notation "x <- c ;; k" := (bind c (fun x => k))
  (at level 61, c at next level, right associativity).

Notation "c ;;; k" := (bind c (fun _ => k))
  (at level 61, right associativity).

Fixpoint update {A : Type} (i : nat) (x : A) (l : list A) : list A :=
  match l, i with
  | [], _ => []
  | _ :: l', O => x :: l'
  | y :: l', S i' => y :: update i' x l'
  end.

Definition is_open (z : ZipFile) (w : World) : bool :=
  nth (fp z) (handles w) false.

(** No archive handle is left open. *)
Definition all_closed (w : World) : bool :=
  forallb negb (handles w).

(** [ZipFile.close()]: releases the handle; closing twice is harmless. *)
Definition ZipFile_close (z : ZipFile) : M unit :=
  fun w =>
    (inr tt,
     mkWorld (update (fp z) false (handles w)) (files w) (stdout w)).

(** [NameToInfo]: a name that occurs twice maps to its last entry. *)
Fixpoint NameToInfo (name : str) (l : list (str * bytes)) : option bytes :=
  match l with
  | [] => None
  | (n, content) :: l' =>
      match NameToInfo name l' with
      | Some c => Some c
      | None => if str_eqb n name then Some content else None
      end
  end.

Definition namelist (z : ZipFile) : list str := map fst (filelist z).

(** [file.write(data)] on a binary file object. *)
Definition IO_write (fh : nat) (data : bytes) : M unit :=
  fun w =>
    match nth_error (files w) fh with
    | Some (Some content) =>
        (inr tt,
         mkWorld (handles w) (update fh (Some (content ++ data)) (files w))
                 (stdout w))
    | _ => (inl (ValueError "I/O operation on closed file."), w)
    end.

Definition print (data : bytes) : M unit :=
  fun w => (inr tt, mkWorld (handles w) (files w) (stdout w ++ [data])).

(** The object [Manifest.__init__] builds. *)
Record Manifest : Type := mkManifest {
  _path : str;
  zfile : ZipFile;
  appname : str;
  info : plist
}.

(** [Manifest.create].  [secure] is accepted and never read. *)
Definition create (self : Manifest) (host : str) (secure : bool)
  (filehandle : option nat) : M bytes :=
  identifier <- lift (getitem (info self) (lit "CFBundleIdentifier")) ;;
  version <- lift (getitem (info self) (lit "CFBundleShortVersionString")) ;;
  plist_data <-
    lift (dumps
            (PDict
               [(lit "items",
                 PList
                   [PDict
                      [(lit "assets",
                        PList
                          [PDict
                             [(lit "kind", PStr (lit "software-package"));
                              (lit "url", PStr host)]]);
                       (lit "metadata",
                        PDict
                          [(lit "bundle-identifier", identifier);
                           (lit "bundle-version", version);
                           (lit "kind", PStr (lit "software"));
                           (lit "title", PStr (appname self))])]])])
            false) ;;
  match filehandle with
  | Some fh => IO_write fh plist_data
  | None => ret tt
  end ;;;
  ret plist_data.

Ltac Zify.zify_post_hook ::= Z.to_euclidean_division_equations.

Ltac decide_test :=
  repeat match goal with
  | |- context [(?a <? ?b)%N] =>
      first [ replace (a <? b)%N with true by (symmetry; apply N.ltb_lt; lia)
            | replace (a <? b)%N with false
                by (symmetry; apply N.ltb_ge; lia) ]
  | |- context [(?a <=? ?b)%N] =>
      first [ replace (a <=? b)%N with true by (symmetry; apply N.leb_le; lia)
            | replace (a <=? b)%N with false
                by (symmetry; apply N.leb_gt; lia) ]
  end.

Ltac some_inv E bs :=
  let E' := fresh in
  assert (E' := f_equal (fun o => match o with Some x => x | None => [] end) E);
  cbv beta iota in E'; subst bs; clear E.


Section Otah.

(** What the model takes from outside: the Unicode table behind [\w] for
    the characters above ASCII, [repr] of a [str], the archive found at a
    path ([zipfile.ZipFile(path)]: its entries, or the exception of a
    missing or malformed file), and [plistlib.load] on the bytes of
    [Info.plist] (XML or binary). *)
Variable unicode_alnum : char -> bool.

Variable py_repr : str -> str.

Variable disk : str -> exn + list (str * bytes).

Variable plistlib_load : bytes -> exn + plist.

Definition is_word (c : char) : bool :=
  if (c <? 128)%N then is_ascii_alnum c || (c =? 95)%N
  else unicode_alnum c.

Definition class_match (cl : charclass) (c : char) : bool :=
  match cl with
  | CLit x => (x =? c)%N
  | CDot => negb (c =? 10)%N
  | CWord => is_word c
  end.

(** The matcher, in continuation style: [k] receives the rest of the
    subject and the captures so far; alternatives are tried in the order
    the Python engine tries them (greedy first). *)
Fixpoint re_match (r : regex) (s : str) (caps : captures)
  (k : str -> captures -> option captures) : option captures :=
  match r with
  | REmpty => k s caps
  | RChar c =>
      match s with
      | x :: s' => if class_match c x then k s' caps else None
      | [] => None
      end
  | RPlus c =>
      match s with
      | x :: s' =>
          if class_match c x
          then greedy (class_match c) s' (fun rest => k rest caps)
          else None
      | [] => None
      end
  | RStar c => greedy (class_match c) s (fun rest => k rest caps)
  | ROpt c =>
      match s with
      | x :: s' =>
          if class_match c x then
            match k s' caps with
            | Some m => Some m
            | None => k s caps
            end
          else k s caps
      | [] => k s caps
      end
  | RGroup i r' =>
      re_match r' s caps
        (fun rest caps' =>
           k rest ((i, firstn (List.length s - List.length rest) s) :: caps'))
  | RCat r1 r2 =>
      re_match r1 s caps (fun rest caps' => re_match r2 rest caps' k)
  end.

(** [pattern.match(s)]: anchored at the start of [s], free at its end. *)
Definition re_match_start (r : regex) (s : str) : option captures :=
  re_match r s [] (fun _ caps => Some caps).

(** The compiled pattern: the literal [Payload/], group 1 of one or more
    word characters, any one character, the literal [app], an optional
    slash, group 2 of any characters up to the end of the line. *)
Definition RE_PLIST_PATH : regex :=
  RCat (rlit (lit "Payload/"))
    (RCat (RGroup 1 (RPlus CWord))
       (RCat (RChar CDot)
          (RCat (rlit (lit "app"))
             (RCat (ROpt (CLit 47%N)) (RGroup 2 (RStar CDot)))))).

Fixpoint first_app_name (names : list str) : str :=
  match names with
  | [] => []
  | path :: names' =>
      match re_match_start RE_PLIST_PATH path with
      | Some m => group 1 m
      | None => first_app_name names'
      end
  end.

Definition _parse_app_name (z : ZipFile) : str :=
  first_app_name (namelist z).

(** [zipfile.ZipFile(path)] *)
Definition ZipFile_new (path : str) : M ZipFile :=
  fun w =>
    match disk path with
    | inl e => (inl e, w)
    | inr entries =>
        (inr (mkZipFile (List.length (handles w)) entries),
         mkWorld (handles w ++ [true]) (files w) (stdout w))
    end.

(** [zfile.open(name)] followed by reading the member to its end. *)
Definition ZipFile_open (z : ZipFile) (name : str) : M bytes :=
  fun w =>
    if is_open z w then
      match NameToInfo name (filelist z) with
      | Some content => (inr content, w)
      | None =>
          (inl (KeyError (lit "There is no item named " ++ py_repr name
                            ++ lit " in the archive")), w)
      end
    else
      (inl (ValueError
              "Attempt to use ZIP archive that was already closed"), w).

Definition plist_path (name : str) : str :=
  lit "Payload/" ++ name ++ lit ".app/Info.plist".

(** [Manifest.__init__] *)
Definition Manifest_init (path : str) : M Manifest :=
  zf <- ZipFile_new path ;;
  let name := _parse_app_name zf in
  if truthy name then
    f <- ZipFile_open zf (plist_path name) ;;
    i <- lift (plistlib_load f) ;;
    ret (mkManifest path zf name i)
  else
    raise (RuntimeError (lit ".ipa file at " ++ path
                           ++ lit " is invalid: Could not detect app name")).

(** [Manifest.__exit__] *)
Definition Manifest_exit (self : Manifest) : M unit :=
  ZipFile_close (zfile self).

(** [with Manifest(path) as manifest: body].  The context expression is
    evaluated first; [__exit__] runs when the body is left, normally or by
    an exception, and returns [None], so an exception of the body goes
    on to the caller. *)
Definition with_Manifest {A : Type} (path : str) (body : Manifest -> M A)
  : M A :=
  fun w =>
    match Manifest_init path w with
    | (inl e, w1) => (inl e, w1)
    | (inr manifest, w1) =>
        match body manifest w1 with
        | (r, w2) => (r, snd (Manifest_exit manifest w2))
        end
    end.

(** [open(path, "wb")]: a new binary file, empty. *)
Definition open_wb : M nat :=
  fun w =>
    (inr (List.length (files w)),
     mkWorld (handles w) (files w ++ [Some []]) (stdout w)).

(** The branch of [_main] taken with [--host] and without [--demo]:
    the manifest goes to the file of [--output], when there is one, and
    is printed. *)
Definition _main_production (ipa_file host : str) (output : option str)
  : M unit :=
  with_Manifest ipa_file
    (fun manifest =>
       filehandle <-
         match output with
         | Some _ => fh <- open_wb ;; ret (Some fh)
         | None => ret None
         end ;;
       data <- create manifest host true filehandle ;;
       print data).

(** ** The archive layout in the words of the specification *)

Fixpoint strip_prefix (p s : str) : option str :=
  match p, s with
  | [], _ => Some s
  | a :: p', b :: s' => if (a =? b)%N then strip_prefix p' s' else None
  | _ :: _, [] => None
  end.

(** The text before the first slash, and the text after it when there is
    a slash. *)
Fixpoint split_component (s : str) : str * option str :=
  match s with
  | [] => ([], None)
  | c :: s' =>
      if (c =? 47)%N then ([], Some s')
      else let (a, r) := split_component s' in (c :: a, r)
  end.

Definition strip_suffix (suffix s : str) : option str :=
  let n := List.length s - List.length suffix in
  if str_eqb (skipn n s) suffix then Some (firstn n s) else None.

(** Specification, section 4.1: a path under the directory [Payload/],
    then a single path component ending in [.app] and its slash, then
    nothing or an arbitrary remainder.  The answer is the component
    without [.app]. *)
Definition app_dir_stem (path : str) : option str :=
  match strip_prefix (lit "Payload/") path with
  | Some r =>
      match split_component r with
      | (component, Some _) => strip_suffix (lit ".app") component
      | (_, None) => None
      end
  | None => None
  end.

Fixpoint first_app_dir_stem (names : list str) : option str :=
  match names with
  | [] => None
  | path :: names' =>
      match app_dir_stem path with
      | Some stem => Some stem
      | None => first_app_dir_stem names'
      end
  end.

(** [sub in s] *)
Fixpoint contains (sub s : str) : bool :=
  match strip_prefix sub s with
  | Some _ => true
  | None =>
      match s with
      | [] => false
      | _ :: s' => contains sub s'
      end
  end.


(** ** Notions of the statements and of their proofs *)

(** The document [create] hands to [plistlib.dumps]. *)
Definition manifest_document (host : str) (identifier version : plist)
  (title : str) : plist :=
  PDict
    [(lit "items",
      PList
        [PDict
           [(lit "assets",
             PList
               [PDict
                  [(lit "kind", PStr (lit "software-package"));
                   (lit "url", PStr host)]]);
            (lit "metadata",
             PDict
               [(lit "bundle-identifier", identifier);
                (lit "bundle-version", version);
                (lit "kind", PStr (lit "software"));
                (lit "title", PStr title)])]])].

(** Specification, sections 4.2 and 9: the reference raises a generic
    lookup error where the specification wants the named kind
    [MissingMetadataField].  Python's generic lookup error of a mapping is
    [KeyError]. *)
Definition generic_lookup_error (e : exn) : bool :=
  match e with
  | KeyError _ => true
  | _ => false
  end.

(** The text an exception carries. *)
Definition exn_arg (e : exn) : option str :=
  match e with
  | RuntimeError msg => Some msg
  | KeyError arg => Some arg
  | LibraryError _ msg => Some msg
  | _ => None
  end.

(** An error of the kind [MissingMetadataField] naming [key]: it carries
    the key and is not the generic lookup error. *)
Definition MissingMetadataField (key : str) (e : exn) : Prop :=
  exn_arg e = Some key /\ generic_lookup_error e = false.

(** ** Concrete instances *)

(** Instances of what the model takes from outside, for the examples:
    no word characters above ASCII, [repr] as the text between single
    quotes, and [plistlib.loads] for [plistlib.load] with a reader of the
    binary format that finds nothing to read. *)
Definition ascii_only : char -> bool := fun _ => false.

Definition quoted (s : str) : str := [39%N] ++ s ++ [39%N].

Definition no_binary : bytes -> exn + plist :=
  fun _ => inl (LibraryError "InvalidFileException" (lit "Invalid file")).

(** The metadata of the fixture, and its [Info.plist] as an XML property
    list. *)
Definition openterm_info : plist :=
  PDict [(lit "CFBundleIdentifier", PStr (lit "com.example.OpenTerm"));
         (lit "CFBundleShortVersionString", PStr (lit "1.0.0"))].

Definition openterm_plist : bytes :=
  match dumps openterm_info true with
  | inr data => data
  | inl _ => []
  end.

(** An archive whose [Info.plist] is no property list. *)
Definition unreadable_archive : list (str * bytes) :=
  [(lit "Payload/Foo.app/Info.plist", blit "not a property list")].

Definition on_disk (entries : list (str * bytes))
  : str -> exn + list (str * bytes) :=
  fun _ => inr entries.

Definition empty_world : World := mkWorld [] [] [].

Definition openterm_manifest : Manifest :=
  mkManifest (lit "OpenTerm.ipa") (mkZipFile 0 []) (lit "OpenTerm")
    openterm_info.

(** One line of the XML document: tabs, text, line feed. *)
Definition xml_line (level : nat) (text : bytes) : bytes :=
  repeat x09 level ++ text ++ [x0a].

(** The text of a string element: escaped, then encoded. *)
Definition string_text (s : str) : exn + bytes :=
  e <~ _escape s ;; encode_utf8 e.

(** The XML property list of a manifest, line by line, around the text of
    the url and of the title and the elements of the two metadata
    values. *)
Definition manifest_xml (url identifier version title : bytes) : bytes :=
  PLISTHEADER
  ++ xml_line 0 (blit ("<plist version=" ++ dquote ++ "1.0" ++ dquote
                       ++ ">")%string)
  ++ xml_line 0 (blit "<dict>")
  ++ xml_line 1 (blit "<key>items</key>")
  ++ xml_line 1 (blit "<array>")
  ++ xml_line 2 (blit "<dict>")
  ++ xml_line 3 (blit "<key>assets</key>")
  ++ xml_line 3 (blit "<array>")
  ++ xml_line 4 (blit "<dict>")
  ++ xml_line 5 (blit "<key>kind</key>")
  ++ xml_line 5 (blit "<string>software-package</string>")
  ++ xml_line 5 (blit "<key>url</key>")
  ++ xml_line 5 (blit "<string>" ++ url ++ blit "</string>")
  ++ xml_line 4 (blit "</dict>")
  ++ xml_line 3 (blit "</array>")
  ++ xml_line 3 (blit "<key>metadata</key>")
  ++ xml_line 3 (blit "<dict>")
  ++ xml_line 4 (blit "<key>bundle-identifier</key>")
  ++ identifier
  ++ xml_line 4 (blit "<key>bundle-version</key>")
  ++ version
  ++ xml_line 4 (blit "<key>kind</key>")
  ++ xml_line 4 (blit "<string>software</string>")
  ++ xml_line 4 (blit "<key>title</key>")
  ++ xml_line 4 (blit "<string>" ++ title ++ blit "</string>")
  ++ xml_line 3 (blit "</dict>")
  ++ xml_line 2 (blit "</dict>")
  ++ xml_line 1 (blit "</array>")
  ++ xml_line 0 (blit "</dict>")
  ++ xml_line 0 (blit "</plist>").

(** Strings without a carriage return. *)
Definition no_cr (s : str) : bool := forallb (fun c => negb (c =? 13)%N) s.

(** What [_escape] makes of one character of such a string. *)
Definition escape_char (c : char) : str :=
  if (c =? 38)%N then lit "&amp;"
  else if (c =? 60)%N then lit "&lt;"
  else if (c =? 62)%N then lit "&gt;"
  else [c].















(** ** The command line with [--demo], up to the manifest file *)

(** The URL of the archive on this machine.  [Path_name] is
    [pathlib.PurePath.name], the final component of a path, taken from
    outside like the other library calls; [localhost] is what [_get_ip]
    returned and [port] the integer of [--port]. *)
Definition demo_host (Path_name : str -> str) (manifest : Manifest)
  (localhost : str) (port : Z) : str :=
  lit "https://" ++ localhost ++ lit ":" ++ format_d port ++ lit "/"
  ++ Path_name (_path manifest).

(** The branch of [_main] taken with [--demo], from the URL to the call
    of [create] in the [with] block of [manifest.plist]; the answer is the
    file object of that block, which the end of the block closes.  The
    call is [manifest.create(host, f)]: the file object is the second
    positional argument and so arrives as [secure], and [filehandle]
    keeps its default [None]. *)
Definition _main_demo_manifest (Path_name : str -> str)
  (manifest : Manifest) (localhost : str) (port : Z) : M nat :=
  let host := demo_host Path_name manifest localhost port in
  f <- open_wb ;;
  create manifest host true None ;;;
  ret f.

(** ** Notions of the further properties *)

(** The line endings [_escape] leaves behind: a carriage return with its
    line feed, and a carriage return alone, become a line feed. *)
Definition universal_newlines (s : str) : str :=
  replace_char 13%N [10%N] (replace_crlf s).

(** A character with a UTF-8 encoding. *)
Definition encodable (c : char) : bool :=
  match utf8_char c with
  | Some _ => true
  | None => false
  end.

(** A string the XML writer takes: no control character, and every
    character can be encoded. *)
Definition writable (s : str) : bool :=
  negb (existsb is_control s) && forallb encodable s.

(** A value that is neither an array nor a mapping. *)
Definition scalar (v : plist) : bool :=
  match v with
  | PList _ | PDict _ => false
  | _ => true
  end.

(** Items whose keys ascend strictly. *)
Fixpoint keys_ascending {A : Type} (l : list (str * A)) : bool :=
  match l with
  | a :: l' =>
      match l' with
      | b :: _ => str_ltb (fst a) (fst b) && keys_ascending l'
      | [] => true
      end
  | [] => true
  end.

(** An octet of the ASCII range. *)
Definition ascii_octet (b : byte) : bool := (Byte.to_N b <? 128)%N.

(** Bytes that are the UTF-8 encoding of a string. *)
Definition is_text (b : bytes) : Prop := exists s, encode_utf8 s = inr b.

(** ** Further concrete instances *)

(** The archive of the fixture and the object [Manifest] builds from
    it. *)
Definition openterm_archive : list (str * bytes) :=
  [(lit "iTunesMetadata.plist", []);
   (lit "Payload/OpenTerm.app/Info.plist", openterm_plist)].

Definition openterm_object : Manifest :=
  mkManifest (lit "OpenTerm.ipa") (mkZipFile 0 openterm_archive)
    (lit "OpenTerm") openterm_info.

(** An archive whose [Info.plist] decodes and holds neither of the two
    keys [create] looks up, and the object [Manifest] builds from it. *)
Definition bare_info : plist :=
  PDict [(lit "CFBundleName", PStr (lit "Foo"))].

Definition bare_plist : bytes :=
  match dumps bare_info true with
  | inr data => data
  | inl _ => []
  end.

Definition bare_archive : list (str * bytes) :=
  [(lit "Payload/Foo.app/Info.plist", bare_plist)].

Definition bare_object : Manifest :=
  mkManifest (lit "Foo.ipa") (mkZipFile 0 bare_archive) (lit "Foo") bare_info.

Definition example_host : str := lit "https://example.com/OpenTerm.ipa".

(** * Properties *)

(** ** Name detection *)


Lemma greedy_invariant (P : captures -> Prop) (p : char -> bool)
  (k : str -> option captures) :
  (forall r, exists m, k r = Some m /\ P m) ->
  forall s, exists m, greedy p s k = Some m /\ P m.
Proof.
  intros Hk s. induction s as [|c s IH]; simpl.
  - apply Hk.
  - destruct (p c).
    + destruct IH as [m [-> Hm]]. exists m. split; [reflexivity | exact Hm].
    + apply Hk.
Qed.



Lemma re_match_rlit (l s : str) (caps : captures)
  (k : str -> captures -> option captures) :
  re_match (rlit l) (l ++ s) caps k = k s caps.
Proof.
  induction l as [|c l IH]; simpl.
  - reflexivity.
  - rewrite N.eqb_refl. exact IH.
Qed.




Lemma first_app_name_none (names : list str) :
  Forall (fun p => re_match_start RE_PLIST_PATH p = None) names ->
  first_app_name names = [].
Proof.
  induction 1 as [|p names Hp _ IH]; simpl.
  - reflexivity.
  - rewrite Hp. exact IH.
Qed.

(** ** Construction *)


(** C4, as amended.  When no entry name of the archive matches the
    pattern, [Manifest(path)] raises the module's [RuntimeError] (could
    not detect app name) and no other exception. *)
Theorem init_fails_without_match
  (path : str) (entries : list (str * bytes)) (w : World) :
  disk path = inr entries ->
  Forall (fun e => re_match_start RE_PLIST_PATH (fst e) = None) entries ->
  fst (Manifest_init path w)
  = inl (RuntimeError (lit ".ipa file at " ++ path
                         ++ lit " is invalid: Could not detect app name")).
Proof.
  intros Hdisk Hnone.
  unfold Manifest_init, bind, ZipFile_new. rewrite Hdisk.
  unfold _parse_app_name, namelist. cbn [filelist].
  rewrite first_app_name_none by (rewrite Forall_map; exact Hnone).
  reflexivity.
Qed.


(** ** The archive handle *)

Lemma nth_update_same (i : nat) (l : list bool) :
  nth i (update i false l) false = false.
Proof.
  revert i. induction l as [|b l IH]; intros [|i]; simpl; auto.
Qed.

(** Once [Manifest(path)] has returned, the [with] block closes the
    archive handle however its body ends. *)
Lemma with_Manifest_closes (A : Type) (path : str) (body : Manifest -> M A)
  (w w1 : World) (m : Manifest) :
  Manifest_init path w = (inr m, w1) ->
  is_open (zfile m) (snd (with_Manifest path body w)) = false.
Proof.
  intros Hinit. unfold with_Manifest. rewrite Hinit.
  destruct (body m w1) as [r w2]. unfold Manifest_exit, ZipFile_close, is_open.
  cbn [snd handles]. apply nth_update_same.
Qed.

(** ** The pattern, in full *)

Lemma firstn_before_suffix (a b : str) :
  firstn (List.length (a ++ b) - List.length b) (a ++ b) = a.
Proof.
  rewrite length_app, Nat.add_sub.
  rewrite <- (Nat.add_0_r (List.length a)), firstn_app_2.
  simpl. apply app_nil_r.
Qed.

(** When the greedy loop fails, the continuation fails after every run of
    matching characters. *)
Lemma greedy_none (p : char -> bool) (k : str -> option captures) (s : str) :
  greedy p s k = None ->
  forall a b, s = a ++ b -> forallb p a = true -> k b = None.
Proof.
  induction s as [|c s IH]; simpl; intros H a b E Ha.
  - symmetry in E. apply app_eq_nil in E as [_ ->]. exact H.
  - destruct a as [|x a]; simpl in E.
    + subst b. destruct (p c); [|exact H].
      destruct (greedy p s k); [discriminate | exact H].
    + injection E as -> ->. simpl in Ha.
      apply andb_true_iff in Ha as [Hx Ha]. rewrite Hx in H.
      destruct (greedy p (a ++ b) k) eqn:G; [discriminate|].
      apply (IH eq_refl a b eq_refl Ha).
Qed.

(** When it succeeds, the continuation has succeeded after a run of
    matching characters and failed after every longer one. *)
Lemma greedy_longest (p : char -> bool) (k : str -> option captures)
  (s : str) (m : captures) :
  greedy p s k = Some m ->
  exists a b,
    s = a ++ b /\ forallb p a = true /\ k b = Some m
    /\ forall a' b',
         s = a' ++ b' -> forallb p a' = true ->
         List.length a < List.length a' -> k b' = None.
Proof.
  clear unicode_alnum py_repr disk plistlib_load.
  induction s as [|c s IH]; simpl; intros H.
  - exists [], []. repeat split; [exact H|].
    intros a' b' E _ L. symmetry in E. apply app_eq_nil in E as [-> _].
    simpl in L. lia.
  - destruct (p c) eqn:Hc.
    + destruct (greedy p s k) as [m0|] eqn:G.
      * injection H as ->. destruct (IH eq_refl) as [a [b [E [Ha [Hk Hmax]]]]].
        exists (c :: a), b. subst s. repeat split.
        -- simpl. rewrite Hc. exact Ha.
        -- exact Hk.
        -- intros a' b' E' Ha' L. destruct a' as [|x a']; simpl in L; [lia|].
           simpl in E'. injection E' as <- E'. simpl in Ha'.
           apply andb_true_iff in Ha' as [_ Ha'].
           apply (Hmax a' b' E' Ha'). lia.
      * exists [], (c :: s). repeat split; [exact H|].
        intros a' b' E' Ha' L. destruct a' as [|x a']; simpl in L; [lia|].
        simpl in E'. injection E' as <- E'. simpl in Ha'.
        apply andb_true_iff in Ha' as [_ Ha'].
        apply (greedy_none p k s G a' b' E' Ha').
    + exists [], (c :: s). repeat split; [exact H|].
      intros a' b' E' Ha' L. destruct a' as [|x a']; simpl in L; [lia|].
      simpl in E'. injection E' as <- E'. simpl in Ha'. rewrite Hc in Ha'.
      discriminate.
Qed.

Lemma re_match_rlit_inv (l s : str) (caps : captures)
  (k : str -> captures -> option captures) (m : captures) :
  re_match (rlit l) s caps k = Some m ->
  exists s', s = l ++ s' /\ k s' caps = Some m.
Proof.
  revert s. induction l as [|c l IH]; simpl; intros s H.
  - exists s. split; [reflexivity | exact H].
  - destruct s as [|x s]; [discriminate|].
    destruct (c =? x)%N eqn:E; [|discriminate].
    apply N.eqb_eq in E. subst x.
    destruct (IH s H) as [s' [-> Hk]]. exists s'. split; [reflexivity | exact Hk].
Qed.

(** What follows group 1 in the pattern matches any character but the
    line feed, then [app], then whatever is left. *)
Lemma after_name_matches_any (c : char) (rest : str) (caps : captures) :
  c <> 10%N ->
  exists g2,
    re_match
      (RCat (RChar CDot)
         (RCat (rlit (lit "app"))
            (RCat (ROpt (CLit 47%N)) (RGroup 2 (RStar CDot)))))
      (c :: lit "app" ++ rest) caps (fun _ c => Some c)
    = Some ((2, g2) :: caps).
Proof.
  intros Hc. apply N.eqb_neq in Hc.
  cbn -[greedy firstn List.length N.eqb]. rewrite Hc. cbn [negb].
  cbn -[greedy firstn List.length].
  assert (G : forall s, exists g2,
             greedy (class_match CDot) s
               (fun r => Some ((2, firstn (List.length s - List.length r) s)
                                 :: caps))
             = Some ((2, g2) :: caps)).
  { intros s.
    destruct (greedy_invariant (fun m => exists g, m = (2, g) :: caps)
                (class_match CDot)
                (fun r => Some ((2, firstn (List.length s - List.length r) s)
                                  :: caps))) with (s := s) as [m [E [g ->]]].
    - intros r. eexists. split; [reflexivity | eexists; reflexivity].
    - exists g. exact E. }
  destruct rest as [|d rest].
  - apply G.
  - match goal with |- context [if ?b then _ else _] => destruct b end.
    + destruct (G rest) as [g E]. exists g.
      unfold captures, str, char in E |- *. rewrite E. reflexivity.
    + apply G.
Qed.

(** Everything a match of the pattern says about its subject. *)
Lemma re_match_start_inv (path : str) (m : captures) :
  re_match_start RE_PLIST_PATH path = Some m ->
  exists name c rest g2,
    path = lit "Payload/" ++ name ++ c :: lit "app" ++ rest
    /\ name <> []
    /\ forallb is_word name = true
    /\ c <> 10%N
    /\ m = [(2, g2); (1, name)]
    /\ forall name' c' rest',
         name ++ c :: lit "app" ++ rest = name' ++ c' :: lit "app" ++ rest' ->
         forallb is_word name' = true -> c' <> 10%N ->
         List.length name' <= List.length name.
Proof.
  clear py_repr disk plistlib_load.
  unfold re_match_start, RE_PLIST_PATH.
  remember (RCat (RChar CDot)
              (RCat (rlit (lit "app"))
                 (RCat (ROpt (CLit 47%N)) (RGroup 2 (RStar CDot)))))
    as tail eqn:Htail.
  cbn [re_match]. intros H.
  apply re_match_rlit_inv in H as [s [-> H]].
  destruct s as [|x s]; [discriminate|].
  cbn [re_match class_match] in H.
  destruct (is_word x) eqn:Hx; [|discriminate].
  apply greedy_longest in H as [a [b [-> [Ha [Hk Hmax]]]]].
  change (x :: a ++ b) with ((x :: a) ++ b) in Hk.
  rewrite firstn_before_suffix in Hk.
  assert (Hb : exists c rest, b = c :: lit "app" ++ rest /\ c <> 10%N).
  { rewrite Htail in Hk. cbn [re_match] in Hk.
    destruct b as [|c b]; [discriminate|].
    cbn [class_match] in Hk.
    destruct (c =? 10)%N eqn:Hc; [discriminate|]. cbn [negb] in Hk.
    apply re_match_rlit_inv in Hk as [rest [-> _]].
    exists c, rest. split; [reflexivity|]. apply N.eqb_neq. exact Hc. }
  destruct Hb as [c [rest [-> Hc]]].
  destruct (after_name_matches_any c rest [(1, x :: a)] Hc) as [g2 Hg].
  rewrite <- Htail in Hg.
  exists (x :: a), c, rest, g2. repeat split.
  - discriminate.
  - simpl. rewrite Hx. exact Ha.
  - exact Hc.
  - unfold captures, str, char in Hk, Hg |- *. congruence.
  - intros name' c' rest' E Hw' Hc'.
    destruct (Nat.le_gt_cases (List.length name') (List.length (x :: a)))
      as [L|L]; [exact L|].
    destruct name' as [|x' a']; [simpl in L; lia|].
    simpl in E. injection E as <- E. simpl in Hw'.
    change (a ++ c :: lit "app" ++ rest = a' ++ c' :: lit "app" ++ rest')
      in E.
    apply andb_true_iff in Hw' as [_ Hw'].
    assert (Hn := Hmax a' (c' :: lit "app" ++ rest') E Hw'
                    ltac:(simpl in L; lia)).
    cbv beta in Hn. rewrite E in Hn.
    change (x :: a' ++ c' :: lit "app" ++ rest')
      with ((x :: a') ++ c' :: lit "app" ++ rest') in Hn.
    rewrite firstn_before_suffix in Hn.
    destruct (after_name_matches_any c' rest' [(1, x :: a')] Hc') as [g Hg'].
    rewrite <- Htail in Hg'.
    unfold captures, str, char in Hn, Hg' |- *. congruence.
Qed.

(** X1.  The paths the pattern matches are those that begin with [Payload/],
    one or more word characters, one character that is no line feed, and
    [app]; nothing is asked of what follows. *)
Theorem pattern_matches_iff (path : str) :
  re_match_start RE_PLIST_PATH path <> None
  <-> exists name c rest,
        path = lit "Payload/" ++ name ++ c :: lit "app" ++ rest
        /\ name <> []
        /\ forallb is_word name = true
        /\ c <> 10%N.
Proof.
  split.
  - destruct (re_match_start RE_PLIST_PATH path) as [m|] eqn:E;
      [intros _ | congruence].
    apply re_match_start_inv in E
      as [name [c [rest [g2 [Hp [Hne [Hw [Hc _]]]]]]]].
    exists name, c, rest. auto.
  - intros [name [c [rest [-> [Hne [Hw Hc]]]]]] H.
    unfold re_match_start, RE_PLIST_PATH in H.
    remember (RCat (RChar CDot)
                (RCat (rlit (lit "app"))
                   (RCat (ROpt (CLit 47%N)) (RGroup 2 (RStar CDot)))))
      as tail eqn:Htail.
    cbn [re_match] in H. rewrite re_match_rlit in H.
    destruct name as [|x name]; [congruence|].
    simpl in Hw. apply andb_true_iff in Hw as [Hx Hw].
    cbn [re_match List.app class_match] in H. rewrite Hx in H.
    assert (Hn := greedy_none _ _ _ H name (c :: lit "app" ++ rest)
                    eq_refl Hw).
    cbv beta in Hn.
    change (x :: name ++ c :: lit "app" ++ rest)
      with ((x :: name) ++ c :: lit "app" ++ rest) in Hn.
    rewrite firstn_before_suffix in Hn.
    destruct (after_name_matches_any c rest [(1, x :: name)] Hc) as [g Hg].
    rewrite <- Htail in Hg.
    unfold captures, str, char in Hn, Hg |- *. congruence.
Qed.

(** X2.  Group 1 of a match is the longest run of word characters after
    [Payload/] that is followed by a character other than the line feed
    and by [app]. *)
Theorem group1_is_longest_name (s : str) (m : captures) :
  re_match_start RE_PLIST_PATH (lit "Payload/" ++ s) = Some m ->
  exists c rest,
    s = group 1 m ++ c :: lit "app" ++ rest
    /\ group 1 m <> []
    /\ forallb is_word (group 1 m) = true
    /\ c <> 10%N
    /\ forall name' c' rest',
         s = name' ++ c' :: lit "app" ++ rest' ->
         forallb is_word name' = true -> c' <> 10%N ->
         List.length name' <= List.length (group 1 m).
Proof.
  intros H.
  apply re_match_start_inv in H
    as [name [c [rest [g2 [Hp [Hne [Hw [Hc [-> Hmax]]]]]]]]].
  apply app_inv_head in Hp. subst s. cbn [group Nat.eqb].
  exists c, rest. repeat split; auto.
Qed.

(** X3.  [_parse_app_name] returns the empty string exactly when no entry name
    of the archive matches the pattern. *)
Theorem parse_app_name_empty_iff (z : ZipFile) :
  _parse_app_name z = []
  <-> Forall (fun p => re_match_start RE_PLIST_PATH p = None) (namelist z).
Proof.
  unfold _parse_app_name. generalize (namelist z) as names.
  induction names as [|p names IH]; simpl.
  - split; [constructor | reflexivity].
  - destruct (re_match_start RE_PLIST_PATH p) as [m|] eqn:E.
    + destruct (re_match_start_inv _ _ E)
        as [name [c [rest [g2 [_ [Hne [_ [_ [-> _]]]]]]]]].
      cbn [group Nat.eqb]. split; [congruence|].
      intros F. inversion F. congruence.
    + rewrite IH. split; [intros F; constructor; [exact E | exact F]|].
      intros F. inversion F. assumption.
Qed.

(** ** Construction, case by case *)

Lemma is_open_new (entries : list (str * bytes)) (w : World) :
  is_open (mkZipFile (List.length (handles w)) entries)
    (mkWorld (handles w ++ [true]) (files w) (stdout w)) = true.
Proof.
  unfold is_open. cbn [fp handles]. rewrite app_nth2 by lia.
  rewrite Nat.sub_diag. reflexivity.
Qed.

Lemma Manifest_init_cases (path : str) (w : World) :
  Manifest_init path w
  = match disk path with
    | inl e => (inl e, w)
    | inr entries =>
        let w' := mkWorld (handles w ++ [true]) (files w) (stdout w) in
        let name := first_app_name (map fst entries) in
        if truthy name then
          match NameToInfo (plist_path name) entries with
          | Some content =>
              match plistlib_load content with
              | inl e => (inl e, w')
              | inr i =>
                  (inr (mkManifest path
                          (mkZipFile (List.length (handles w)) entries)
                          name i), w')
              end
          | None =>
              (inl (KeyError (lit "There is no item named "
                                ++ py_repr (plist_path name)
                                ++ lit " in the archive")), w')
          end
        else
          (inl (RuntimeError
                  (lit ".ipa file at " ++ path
                     ++ lit " is invalid: Could not detect app name")), w')
    end.
Proof.
  unfold Manifest_init, bind, ZipFile_new.
  destruct (disk path) as [e|entries]; [reflexivity|]. cbv zeta.
  unfold _parse_app_name, namelist. cbn [filelist].
  destruct (truthy (first_app_name (map fst entries))); [|reflexivity].
  unfold ZipFile_open. rewrite is_open_new. cbn [filelist].
  destruct (NameToInfo (plist_path (first_app_name (map fst entries)))
              entries) as [content|]; [|reflexivity].
  unfold lift, ret. destruct (plistlib_load content); reflexivity.
Qed.

Lemma first_app_name_word (names : list str) :
  forallb is_word (first_app_name names) = true.
Proof.
  induction names as [|p names IH]; simpl; [reflexivity|].
  destruct (re_match_start RE_PLIST_PATH p) as [m|] eqn:E; [|exact IH].
  apply re_match_start_inv in E
    as [name [c [rest [g2 [_ [_ [Hw [_ [-> _]]]]]]]]].
  exact Hw.
Qed.

Lemma truthy_nonempty (s : str) : truthy s = true <-> s <> [].
Proof. destruct s; simpl; split; congruence. Qed.


(** X4.  What a [Manifest(path)] that returns has found: the archive opens,
    the name is the one [_parse_app_name] detects, not empty and made of
    word characters, the member [Payload/<name>.app/Info.plist] exists and
    [plistlib.load] decodes it to [info]; one archive handle has been
    opened and is still open, and nothing else has changed. *)
Theorem init_returns_only_if (path : str) (w w' : World) (m : Manifest) :
  Manifest_init path w = (inr m, w') ->
  exists entries content,
    disk path = inr entries
    /\ _path m = path
    /\ zfile m = mkZipFile (List.length (handles w)) entries
    /\ appname m = _parse_app_name (zfile m)
    /\ appname m <> []
    /\ forallb is_word (appname m) = true
    /\ NameToInfo (plist_path (appname m)) entries = Some content
    /\ plistlib_load content = inr (info m)
    /\ w' = mkWorld (handles w ++ [true]) (files w) (stdout w)
    /\ is_open (zfile m) w' = true.
Proof.
  rewrite Manifest_init_cases.
  destruct (disk path) as [e|entries]; [discriminate|]. cbv zeta.
  destruct (truthy (first_app_name (map fst entries))) eqn:Hname;
    [|discriminate].
  destruct (NameToInfo (plist_path (first_app_name (map fst entries)))
              entries) as [content|] eqn:Hmember; [|discriminate].
  destruct (plistlib_load content) as [e|i] eqn:Hload; [discriminate|].
  intros H. injection H as <- <-. exists entries, content.
  cbn [_path zfile appname info].
  repeat split; try assumption; try reflexivity.
  - apply truthy_nonempty. exact Hname.
  - apply first_app_name_word.
  - apply is_open_new.
Qed.


Lemma nth_update_other (i j : nat) (x : bool) (l : list bool) :
  i <> j -> nth j (update i x l) false = nth j l false.
Proof.
  revert i j. induction l as [|b l IH]; intros [|i] [|j] H; simpl; auto.
  congruence.
Qed.

(** X6.  The [with] statement on a [Manifest(path)] that returns: the outcome
    of the body, value or exception, is the outcome of the statement; the
    archive handle of the object is closed afterwards; every other handle,
    the files and the output are as the body left them. *)
Theorem with_block_closes_its_archive (A : Type) (path : str)
  (body : Manifest -> M A) (w w1 w2 : World) (m : Manifest) (r : exn + A) :
  Manifest_init path w = (inr m, w1) ->
  body m w1 = (r, w2) ->
  fst (with_Manifest path body w) = r
  /\ is_open (zfile m) (snd (with_Manifest path body w)) = false
  /\ (forall z, fp z <> fp (zfile m) ->
        is_open z (snd (with_Manifest path body w)) = is_open z w2)
  /\ files (snd (with_Manifest path body w)) = files w2
  /\ stdout (snd (with_Manifest path body w)) = stdout w2.
Proof.
  intros Hinit Hbody. unfold with_Manifest. rewrite Hinit, Hbody.
  unfold Manifest_exit, ZipFile_close, is_open.
  cbn [fst snd handles files stdout].
  repeat split.
  - apply nth_update_same.
  - intros z Hz. apply nth_update_other. congruence.
Qed.

Lemma is_word_plain (c : char) :
  is_word c = true ->
  is_control c = false
  /\ (c =? 13)%N = false
  /\ escape_char c = [c].
Proof.
  unfold is_word, is_ascii_alnum, is_control, escape_char. intros H.
  assert (R : ((48 <= c /\ c <= 57) \/ (65 <= c /\ c <= 90) \/ c = 95
               \/ (97 <= c /\ c <= 122) \/ 128 <= c)%N).
  { destruct (c <? 128)%N eqn:E.
    - rewrite !orb_true_iff, !andb_true_iff, !N.leb_le, N.eqb_eq in H. lia.
    - apply N.ltb_ge in E. lia. }
  replace (c <? 32)%N with false by (symmetry; apply N.ltb_ge; lia).
  replace (c =? 13)%N with false by (symmetry; apply N.eqb_neq; lia).
  replace (c =? 38)%N with false by (symmetry; apply N.eqb_neq; lia).
  replace (c =? 60)%N with false by (symmetry; apply N.eqb_neq; lia).
  replace (c =? 62)%N with false by (symmetry; apply N.eqb_neq; lia).
  repeat split.
Qed.

(** [_escape] leaves a string of word characters as it is. *)
Lemma escape_word (s : str) :
  forallb is_word s = true -> _escape s = inr s.
Proof.
  intros H.
  assert (Hc : existsb is_control s = false
               /\ no_cr s = true /\ flat_map escape_char s = s).
  { induction s as [|c s IH]; [repeat split|].
    cbn [forallb] in H. apply andb_true_iff in H as [Hw Hs].
    destruct (is_word_plain c Hw) as [H1 [H2 H3]].
    destruct (IH Hs) as [I1 [I2 I3]].
    unfold no_cr in I2 |- *. cbn [existsb forallb flat_map].
    rewrite H1, H2, H3, I1, I2, I3. repeat split. }
  destruct Hc as [H1 [H2 H3]].
  unfold _escape. rewrite H1. cbv zeta.
  assert (R1 : replace_crlf s = s).
  { clear H H1 H3. induction s as [|c s IH]; [reflexivity|].
    unfold no_cr in H2. cbn [forallb] in H2.
    apply andb_true_iff in H2 as [Hc Hs].
    cbn [replace_crlf]. destruct s as [|d s]; [reflexivity|].
    apply negb_true_iff in Hc. rewrite Hc. cbn [andb].
    rewrite (IH Hs). reflexivity. }
  assert (R2 : replace_char 13%N [10%N] s = s).
  { clear H H1 H3 R1. unfold replace_char.
    induction s as [|c s IH]; [reflexivity|].
    unfold no_cr in H2. cbn [forallb] in H2.
    apply andb_true_iff in H2 as [Hc Hs].
    apply negb_true_iff in Hc. cbn [flat_map]. rewrite Hc, (IH Hs).
    reflexivity. }
  rewrite R1, R2. f_equal.
  rewrite <- H3 at 2. clear. unfold replace_char.
  induction s as [|c s IH]; [reflexivity|].
  cbn [flat_map]. rewrite !flat_map_app. f_equal; [|exact IH].
  unfold escape_char.
  destruct (c =? 38)%N eqn:E1; [reflexivity|].
  cbn [flat_map List.app]. destruct (c =? 60)%N eqn:E2; [reflexivity|].
  cbn [flat_map List.app]. destruct (c =? 62)%N eqn:E3; reflexivity.
Qed.


(** What a [Manifest(path)] that returns has done to the world. *)
Lemma Manifest_init_world (path : str) (w w1 : World) (m : Manifest) :
  Manifest_init path w = (inr m, w1) ->
  w1 = mkWorld (handles w ++ [true]) (files w) (stdout w)
  /\ fp (zfile m) = List.length (handles w)
  /\ forallb is_word (appname m) = true.
Proof.
  rewrite Manifest_init_cases.
  destruct (disk path) as [e|entries]; [discriminate|]. cbv zeta.
  destruct (truthy (first_app_name (map fst entries))); [|discriminate].
  destruct (NameToInfo (plist_path (first_app_name (map fst entries)))
              entries) as [content|]; [|discriminate].
  destruct (plistlib_load content) as [e|i]; [discriminate|].
  intros H. injection H as <- <-. cbn [zfile fp appname].
  repeat split. apply first_app_name_word.
Qed.

End Otah.

(** ** The manifest *)

Lemma ebind_inr (A B : Type) (c : exn + A) (k : A -> exn + B) (y : B) :
  ebind c k = inr y -> exists x, c = inr x /\ k x = inr y.
Proof.
  destruct c as [e|x]; simpl; intros H; [discriminate|].
  exists x. split; [reflexivity | exact H].
Qed.

(** What a call that returns has computed. *)
Lemma create_result (self : Manifest) (host : str) (secure : bool)
  (filehandle : option nat) (w : World) (data : bytes) :
  fst (create self host secure filehandle w) = inr data ->
  exists identifier version,
    getitem (info self) (lit "CFBundleIdentifier") = inr identifier
    /\ getitem (info self) (lit "CFBundleShortVersionString") = inr version
    /\ dumps (manifest_document host identifier version (appname self)) false
       = inr data.
Proof.
  unfold create, bind, lift, manifest_document.
  destruct (getitem (info self) (lit "CFBundleIdentifier"))
    as [e|identifier]; [discriminate|].
  destruct (getitem (info self) (lit "CFBundleShortVersionString"))
    as [e|version]; [discriminate|].
  match goal with
  | |- context [dumps ?d false] => destruct (dumps d false) as [e|out] eqn:E
  end; [discriminate|].
  intros H. exists identifier, version. repeat split.
  destruct filehandle as [fh|].
  - unfold IO_write in H.
    destruct (nth_error (files w) fh) as [[content|]|];
      cbn in H; congruence.
  - cbn in H. congruence.
Qed.

(** C5, as amended.  When the metadata is a mapping without the key
    [CFBundleIdentifier], or without [CFBundleShortVersionString], [create]
    raises [KeyError] with an absent key as its argument (the first of the
    two that is absent), and the world, the file handle it was given
    included, is as it was. *)
Theorem create_missing_field
  (self : Manifest) (host : str) (secure : bool) (filehandle : option nat)
  (w : World) (d : list (str * plist)) :
  info self = PDict d ->
  assoc (lit "CFBundleIdentifier") d = None
  \/ assoc (lit "CFBundleShortVersionString") d = None ->
  exists key,
    (key = lit "CFBundleIdentifier" \/ key = lit "CFBundleShortVersionString")
    /\ assoc key d = None
    /\ create self host secure filehandle w = (inl (KeyError key), w).
Proof.
  intros Hinfo Habsent. unfold create, bind, lift. rewrite Hinfo.
  cbn [getitem].
  destruct (assoc (lit "CFBundleIdentifier") d) as [identifier|] eqn:Hi.
  - destruct Habsent as [Habsent|Habsent]; [discriminate|].
    exists (lit "CFBundleShortVersionString"). rewrite Habsent.
    repeat split. right. reflexivity.
  - exists (lit "CFBundleIdentifier"). repeat split; auto.
Qed.

(** C7.  Two calls of [create] on the same object with the same host that
    both return, return the same bytes, whatever [secure], the file
    handles and the worlds of the two calls. *)
Theorem create_deterministic
  (self : Manifest) (host : str) (secure1 secure2 : bool)
  (fh1 fh2 : option nat) (w1 w2 : World) (data1 data2 : bytes) :
  fst (create self host secure1 fh1 w1) = inr data1 ->
  fst (create self host secure2 fh2 w2) = inr data2 ->
  data1 = data2.
Proof.
  intros H1 H2.
  apply create_result in H1 as [i1 [v1 [Hi1 [Hv1 Hd1]]]].
  apply create_result in H2 as [i2 [v2 [Hi2 [Hv2 Hd2]]]].
  congruence.
Qed.

(** C9.  The bytes [create] returns are a function of the name, of the
    two metadata values it looks up and of the host: calls that agree on
    these return the same bytes, and [secure] changes neither the result
    nor the world. *)
Theorem create_depends_on_four_inputs
  (m1 m2 : Manifest) (host : str) (secure1 secure2 : bool)
  (fh1 fh2 : option nat) (w1 w2 : World) (data1 data2 : bytes) :
  appname m1 = appname m2 ->
  getitem (info m1) (lit "CFBundleIdentifier")
  = getitem (info m2) (lit "CFBundleIdentifier") ->
  getitem (info m1) (lit "CFBundleShortVersionString")
  = getitem (info m2) (lit "CFBundleShortVersionString") ->
  fst (create m1 host secure1 fh1 w1) = inr data1 ->
  fst (create m2 host secure2 fh2 w2) = inr data2 ->
  data1 = data2
  /\ forall fh w, create m1 host secure1 fh w = create m1 host secure2 fh w.
Proof.
  intros Hname Hident Hversion H1 H2. split; [|reflexivity].
  apply create_result in H1 as [i1 [v1 [Hi1 [Hv1 Hd1]]]].
  apply create_result in H2 as [i2 [v2 [Hi2 [Hv2 Hd2]]]].
  rewrite Hname in Hd1. congruence.
Qed.

(** ** Concrete archives *)



Lemma init_fails_without_match_witness :
  fst (Manifest_init ascii_only quoted
         (on_disk [(lit "README.txt", []); (lit "Payload/", [])])
         (loads no_binary) (lit "Empty.ipa") empty_world)
  = inl (RuntimeError
           (lit ".ipa file at " ++ lit "Empty.ipa"
              ++ lit " is invalid: Could not detect app name")).
Proof.
  apply (init_fails_without_match ascii_only quoted
           (on_disk [(lit "README.txt", []); (lit "Payload/", [])])
           (loads no_binary) (lit "Empty.ipa")
           [(lit "README.txt", []); (lit "Payload/", [])] empty_world).
  - reflexivity.
  - repeat constructor.
Defined.

(** C4 as stated fails: no entry of the archive lies under a directory
    [Payload/<name>.app/], and construction raises [KeyError], the
    exception of the missing member, not the module's [RuntimeError]. *)
Lemma init_keyerror_without_app_directory :
  first_app_dir_stem [lit "Payload/Foo.app"] = None
  /\ fst (Manifest_init ascii_only quoted
            (on_disk [(lit "Payload/Foo.app", [])])
            (loads no_binary) (lit "Foo.ipa") empty_world)
     = inl (KeyError
              (lit "There is no item named 'Payload/Foo.app/Info.plist'"
                 ++ lit " in the archive")).
Proof. split; reflexivity. Qed.


(** C10.  An archive none of whose entry names contains [.app]: the
    pattern matches [Payload/Fooxapp/Info.plist] with group 1 [Foo], a
    strict prefix of the directory name, and construction fails on the
    missing member [Payload/Foo.app/Info.plist] with [KeyError], not with
    the module's [RuntimeError]. *)
Theorem dot_matches_any_character :
  forall (unicode_alnum : char -> bool) (py_repr : str -> str)
         (plistlib_load : bytes -> exn + plist) (path : str) (w : World),
    existsb (contains (lit ".app")) [lit "Payload/Fooxapp/Info.plist"] = false
    /\ _parse_app_name unicode_alnum
         (mkZipFile 0 [(lit "Payload/Fooxapp/Info.plist", [])]) = lit "Foo"
    /\ strip_prefix (lit "Foo") (lit "Fooxapp") = Some (lit "xapp")
    /\ fst (Manifest_init unicode_alnum py_repr
              (on_disk [(lit "Payload/Fooxapp/Info.plist", [])])
              plistlib_load path w)
       = inl (KeyError
                (lit "There is no item named "
                   ++ py_repr (lit "Payload/Foo.app/Info.plist")
                   ++ lit " in the archive")).
Proof.
  intros unicode_alnum py_repr plistlib_load path w.
  repeat split.
  unfold Manifest_init, bind, ZipFile_new, on_disk.
  change (_parse_app_name unicode_alnum
            (mkZipFile (List.length (handles w))
               [(lit "Payload/Fooxapp/Info.plist", [])]))
    with (lit "Foo").
  cbn [truthy lit map list_ascii_of_string].
  unfold ZipFile_open, is_open. cbn [fp handles filelist].
  rewrite app_nth2 by lia. rewrite Nat.sub_diag. reflexivity.
Qed.

(** C8 on the code.  When [Manifest(path)] raises, for an archive without
    an application name as for one whose [Info.plist] does not decode, the
    [with] block is never entered, [__exit__] does not run, and the
    archive handle opened by [__init__] is left open. *)
Theorem init_failure_leaves_archive_open :
  forall (unicode_alnum : char -> bool) (py_repr : str -> str)
         (plistlib_load : bytes -> exn + plist)
         (A : Type) (body : Manifest -> M A) (path : str),
    with_Manifest unicode_alnum py_repr (on_disk [(lit "README.txt", [])])
      plistlib_load path body empty_world
    = (inl (RuntimeError (lit ".ipa file at " ++ path
                            ++ lit " is invalid: Could not detect app name")),
       mkWorld [true] [] [])
    /\ with_Manifest unicode_alnum py_repr
         (on_disk unreadable_archive)
         (loads no_binary) path body empty_world
       = (inl (LibraryError "InvalidFileException" (lit "Invalid file")),
          mkWorld [true] [] [])
    /\ all_closed (mkWorld [true] [] []) = false.
Proof.
  intros. repeat split.
Qed.

(** The fixture through [_main]: the manifest is written to the output
    file and printed, and the archive handle is closed at the end. *)
Example main_production_on_fixture :
  exists data,
    dumps
      (manifest_document (lit "https://example.com/OpenTerm.ipa")
         (PStr (lit "com.example.OpenTerm")) (PStr (lit "1.0.0"))
         (lit "OpenTerm")) false = inr data
    /\ _main_production ascii_only quoted
         (on_disk [(lit "Payload/", []);
                   (lit "Payload/OpenTerm.app/", []);
                   (lit "Payload/OpenTerm.app/Info.plist", openterm_plist)])
         (loads no_binary) (lit "OpenTerm.ipa")
         (lit "https://example.com/OpenTerm.ipa")
         (Some (lit "manifest.plist")) empty_world
       = (inr tt, mkWorld [false] [Some data] [data]).
Proof.
  eexists. split; vm_compute; reflexivity.
Qed.

(** C5 as stated fails: without [CFBundleIdentifier] the call does not
    fail with an error of the kind [MissingMetadataField]; what it raises
    is [KeyError], the generic lookup error. *)
Lemma create_raises_generic_lookup_error :
  fst (create
         (mkManifest (lit "Foo.ipa") (mkZipFile 0 []) (lit "Foo")
            (PDict [(lit "CFBundleShortVersionString", PStr (lit "1.0"))]))
         (lit "https://example.com/Foo.ipa") true (Some 0)
         (mkWorld [true] [Some []] []))
  = inl (KeyError (lit "CFBundleIdentifier"))
  /\ ~ MissingMetadataField (lit "CFBundleIdentifier")
         (KeyError (lit "CFBundleIdentifier")).
Proof.
  split; [reflexivity|]. intros [_ H]. discriminate H.
Qed.

Lemma create_missing_field_witness :
  exists key,
    (key = lit "CFBundleIdentifier" \/ key = lit "CFBundleShortVersionString")
    /\ assoc key [(lit "CFBundleIdentifier", PStr (lit "com.example.Foo"))]
       = None
    /\ create
         (mkManifest (lit "Foo.ipa") (mkZipFile 0 []) (lit "Foo")
            (PDict [(lit "CFBundleIdentifier", PStr (lit "com.example.Foo"))]))
         (lit "https://example.com/Foo.ipa") true (Some 0)
         (mkWorld [true] [Some []] [])
       = (inl (KeyError key), mkWorld [true] [Some []] []).
Proof.
  apply (create_missing_field
           (mkManifest (lit "Foo.ipa") (mkZipFile 0 []) (lit "Foo")
              (PDict
                 [(lit "CFBundleIdentifier", PStr (lit "com.example.Foo"))]))
           (lit "https://example.com/Foo.ipa") true (Some 0)
           (mkWorld [true] [Some []] [])
           [(lit "CFBundleIdentifier", PStr (lit "com.example.Foo"))]).
  - reflexivity.
  - right. reflexivity.
Defined.

Lemma create_deterministic_witness :
  exists data1 data2,
    fst (create openterm_manifest (lit "https://example.com/OpenTerm.ipa")
           true None empty_world) = inr data1
    /\ fst (create openterm_manifest (lit "https://example.com/OpenTerm.ipa")
              false (Some 0) (mkWorld [false] [Some []] [])) = inr data2
    /\ data1 = data2.
Proof.
  eexists. eexists.
  split; [vm_compute; reflexivity|].
  split; [vm_compute; reflexivity|].
  apply (create_deterministic openterm_manifest
           (lit "https://example.com/OpenTerm.ipa") true false None (Some 0)
           empty_world (mkWorld [false] [Some []] [])).
  - vm_compute. reflexivity.
  - vm_compute. reflexivity.
Defined.

Lemma create_depends_on_four_inputs_witness :
  exists data1 data2,
    fst (create openterm_manifest (lit "https://example.com/OpenTerm.ipa")
           true None empty_world) = inr data1
    /\ fst (create
              (mkManifest (lit "Other.ipa") (mkZipFile 3 []) (lit "OpenTerm")
                 (PDict
                    [(lit "CFBundleName", PStr (lit "Terminal"));
                     (lit "CFBundleShortVersionString", PStr (lit "1.0.0"));
                     (lit "CFBundleIdentifier",
                      PStr (lit "com.example.OpenTerm"))]))
              (lit "https://example.com/OpenTerm.ipa")
              false (Some 0) (mkWorld [false] [Some []] [])) = inr data2
    /\ data1 = data2.
Proof.
  eexists. eexists.
  split; [vm_compute; reflexivity|].
  split; [vm_compute; reflexivity|].
  apply (create_depends_on_four_inputs openterm_manifest
           (mkManifest (lit "Other.ipa") (mkZipFile 3 []) (lit "OpenTerm")
              (PDict
                 [(lit "CFBundleName", PStr (lit "Terminal"));
                  (lit "CFBundleShortVersionString", PStr (lit "1.0.0"));
                  (lit "CFBundleIdentifier",
                   PStr (lit "com.example.OpenTerm"))]))
           (lit "https://example.com/OpenTerm.ipa") true false None (Some 0)
           empty_world (mkWorld [false] [Some []] [])).
  - reflexivity.
  - reflexivity.
  - reflexivity.
  - vm_compute. reflexivity.
  - vm_compute. reflexivity.
Defined.

(** ** The serialized manifest *)

Lemma encode_utf8_app (a b : str) :
  encode_utf8 (a ++ b)
  = (x <~ encode_utf8 a ;; y <~ encode_utf8 b ;; inr (x ++ y)).
Proof.
  induction a as [|c a IH]; simpl.
  - destruct (encode_utf8 b); reflexivity.
  - destruct (utf8_char c) as [o|]; [|reflexivity].
    rewrite IH. destruct (encode_utf8 a) as [e|x]; [reflexivity|]. simpl.
    destruct (encode_utf8 b) as [e|y]; [reflexivity|]. simpl.
    rewrite app_assoc. reflexivity.
Qed.

Lemma writeln_wrap (level : nat) (a t b : str) :
  a <> [] ->
  writeln level (a ++ t ++ b)
  = (x <~ encode_utf8 a ;; y <~ encode_utf8 t ;; z <~ encode_utf8 b ;;
     inr (repeat x09 level ++ (x ++ y ++ z) ++ [x0a])).
Proof.
  intros Ha. destruct a as [|c a]; [congruence|].
  unfold writeln. cbn [List.app].
  change (c :: a ++ t ++ b) with ((c :: a) ++ t ++ b).
  rewrite !encode_utf8_app.
  destruct (encode_utf8 (c :: a)) as [e|x]; [reflexivity|]. cbn [ebind].
  destruct (encode_utf8 t) as [e|y]; [reflexivity|]. cbn [ebind].
  destruct (encode_utf8 b) as [e|z]; reflexivity.
Qed.

Lemma simple_element_string (level : nat) (s : str) :
  simple_element level "string" (Some s)
  = (u <~ string_text s ;;
     inr (xml_line level (blit "<string>" ++ u ++ blit "</string>"))).
Proof.
  unfold simple_element, string_text.
  destruct (_escape s) as [e|t]; [reflexivity|]. cbn [ebind].
  change (lit "<" ++ lit "string" ++ lit ">" ++ t ++ lit "</" ++ lit "string"
            ++ lit ">")
    with (lit "<string>" ++ t ++ lit "</string>").
  rewrite writeln_wrap by discriminate.
  destruct (encode_utf8 t) as [e|u]; reflexivity.
Qed.

Lemma dumps_manifest_document (host : str) (identifier version : plist)
  (title : str) :
  dumps (manifest_document host identifier version title) false
  = (u <~ string_text host ;;
     i <~ write_value false 4 identifier ;;
     v <~ write_value false 4 version ;;
     t <~ string_text title ;;
     inr (manifest_xml u i v t)).
Proof.
  unfold dumps, plist_write, manifest_document.
  cbn [write_value write_items write_each map fst snd].
  rewrite !simple_element_string.
  destruct (string_text host) as [e|u]; [reflexivity|].
  destruct (write_value false 4 identifier) as [e|i]; [reflexivity|].
  destruct (write_value false 4 version) as [e|v]; [reflexivity|].
  destruct (string_text title) as [e|t]; [reflexivity|].
  cbn. 
  repeat (rewrite <- app_assoc; cbn).
  reflexivity.
Qed.

(** C2, as amended.  The bytes of a call that returns are the XML
    property list of the manifest: the header of [plistlib], then the
    [plist] element with the keys of every mapping in the order of the
    dictionary display in [create] (items; assets, metadata; kind, url;
    bundle-identifier, bundle-version, kind, title), the two metadata
    values written with [sort_keys] off. *)
Theorem create_writes_xml
  (self : Manifest) (host : str) (secure : bool) (filehandle : option nat)
  (w : World) (data : bytes) :
  fst (create self host secure filehandle w) = inr data ->
  exists identifier version url i v title,
    getitem (info self) (lit "CFBundleIdentifier") = inr identifier
    /\ getitem (info self) (lit "CFBundleShortVersionString") = inr version
    /\ string_text host = inr url
    /\ write_value false 4 identifier = inr i
    /\ write_value false 4 version = inr v
    /\ string_text (appname self) = inr title
    /\ data = manifest_xml url i v title.
Proof.
  intros H.
  apply create_result in H as [identifier [version [Hi [Hv Hd]]]].
  rewrite dumps_manifest_document in Hd.
  apply ebind_inr in Hd as [url [Hurl Hd]].
  apply ebind_inr in Hd as [i [Hwi Hd]].
  apply ebind_inr in Hd as [v [Hwv Hd]].
  apply ebind_inr in Hd as [title [Htitle Hd]].
  exists identifier, version, url, i, v, title.
  repeat split; try assumption. congruence.
Qed.

Lemma create_writes_xml_witness :
  exists data,
    fst (create openterm_manifest (lit "https://example.com/OpenTerm.ipa")
           true None empty_world) = inr data
    /\ exists identifier version url i v title,
        getitem (info openterm_manifest) (lit "CFBundleIdentifier")
        = inr identifier
        /\ getitem (info openterm_manifest) (lit "CFBundleShortVersionString")
           = inr version
        /\ string_text (lit "https://example.com/OpenTerm.ipa") = inr url
        /\ write_value false 4 identifier = inr i
        /\ write_value false 4 version = inr v
        /\ string_text (appname openterm_manifest) = inr title
        /\ data = manifest_xml url i v title.
Proof.
  eexists. split; [vm_compute; reflexivity|].
  apply (create_writes_xml openterm_manifest
           (lit "https://example.com/OpenTerm.ipa") true None empty_world).
  vm_compute. reflexivity.
Defined.

(** C2 as stated fails: the bytes start with the XML declaration, not
    with the signature [bplist00] of the binary format. *)
Lemma create_output_is_not_binary :
  exists data,
    fst (create openterm_manifest (lit "https://example.com/OpenTerm.ipa")
           true None empty_world) = inr data
    /\ firstn 8 data = blit "<?xml ve"
    /\ firstn 8 data <> blit "bplist00".
Proof.
  eexists. split; [vm_compute; reflexivity|].
  split; [reflexivity | discriminate].
Qed.

(** With [sort_keys] off a mapping inside a metadata value keeps the
    order of its items; the sorted writer would exchange them. *)
Example nested_keys_keep_insertion_order :
  write_value false 0
    (PDict [(lit "b", PBool true); (lit "a", PBool false)])
  = inr (xml_line 0 (blit "<dict>")
         ++ xml_line 1 (blit "<key>b</key>") ++ xml_line 1 (blit "<true/>")
         ++ xml_line 1 (blit "<key>a</key>") ++ xml_line 1 (blit "<false/>")
         ++ xml_line 0 (blit "</dict>"))
  /\ write_value true 0
       (PDict [(lit "b", PBool true); (lit "a", PBool false)])
     = inr (xml_line 0 (blit "<dict>")
            ++ xml_line 1 (blit "<key>a</key>") ++ xml_line 1 (blit "<false/>")
            ++ xml_line 1 (blit "<key>b</key>") ++ xml_line 1 (blit "<true/>")
            ++ xml_line 0 (blit "</dict>")).
Proof. split; reflexivity. Qed.

(** ** Reading back what was written *)

Lemma to_N_byte_of (n : N) : (n < 256)%N -> Byte.to_N (byte_of n) = n.
Proof.
  intros H. unfold byte_of.
  destruct (Byte.of_N n) as [b|] eqn:E.
  - apply Byte.to_of_N. exact E.
  - apply Byte.of_N_None_iff in E. lia.
Qed.

Lemma decode_utf8_cons (b0 : byte) (t0 : bytes) :
  decode_utf8 (b0 :: t0)
  = let n0 := Byte.to_N b0 in
    if (n0 <? 128)%N then option_map (cons n0) (decode_utf8 t0)
    else
      match t0 with
      | [] => None
      | b1 :: t1 =>
          let n1 := Byte.to_N b1 in
          if negb (is_continuation n1) || (n0 <? 192)%N then None
          else if (n0 <? 224)%N then
            let c := ((n0 - 192) * 64 + (n1 - 128))%N in
            if (c <? 128)%N then None
            else option_map (cons c) (decode_utf8 t1)
          else
            match t1 with
            | [] => None
            | b2 :: t2 =>
                let n2 := Byte.to_N b2 in
                if negb (is_continuation n2) then None
                else if (n0 <? 240)%N then
                  let c := ((n0 - 224) * 4096 + (n1 - 128) * 64
                            + (n2 - 128))%N in
                  if (c <? 2048)%N || is_surrogate c then None
                  else option_map (cons c) (decode_utf8 t2)
                else
                  match t2 with
                  | [] => None
                  | b3 :: t3 =>
                      let n3 := Byte.to_N b3 in
                      if negb (is_continuation n3) || negb (n0 <? 248)%N
                      then None
                      else
                        let c := ((n0 - 240) * 262144 + (n1 - 128) * 4096
                                  + (n2 - 128) * 64 + (n3 - 128))%N in
                        if (c <? 65536)%N || negb (c <? 1114112)%N
                        then None
                        else option_map (cons c) (decode_utf8 t3)
                  end
            end
      end.
Proof. reflexivity. Qed.

Lemma decode_utf8_char (c : char) (bs rest : bytes) :
  utf8_char c = Some bs ->
  decode_utf8 (bs ++ rest) = option_map (cons c) (decode_utf8 rest).
Proof.
  unfold utf8_char.
  destruct (c <? 128)%N eqn:H1.
  { intros E; some_inv E bs. pose proof H1 as H1'. apply N.ltb_lt in H1.
    change ([byte_of c] ++ rest) with (byte_of c :: rest).
    rewrite decode_utf8_cons. cbv zeta.
    rewrite to_N_byte_of by lia. rewrite H1'. reflexivity. }
  apply N.ltb_ge in H1.
  destruct (c <? 2048)%N eqn:H2.
  { intros E; some_inv E bs. apply N.ltb_lt in H2.
    change ([byte_of (192 + c / 64); byte_of (128 + c mod 64)] ++ rest)
      with (byte_of (192 + c / 64) :: byte_of (128 + c mod 64) :: rest).
    rewrite decode_utf8_cons. cbv zeta.
    rewrite !to_N_byte_of by lia.
    unfold is_continuation.
    replace ((192 + c / 64 - 192) * 64 + (128 + c mod 64 - 128))%N
      with c by lia.
    decide_test. reflexivity. }
  apply N.ltb_ge in H2.
  destruct (c <? 65536)%N eqn:H3.
  { destruct (is_surrogate c) eqn:Hs; [discriminate|].
    intros E; some_inv E bs. apply N.ltb_lt in H3.
    change ([byte_of (224 + c / 4096); byte_of (128 + (c / 64) mod 64);
             byte_of (128 + c mod 64)] ++ rest)
      with (byte_of (224 + c / 4096) :: byte_of (128 + (c / 64) mod 64)
              :: byte_of (128 + c mod 64) :: rest).
    rewrite decode_utf8_cons. cbv zeta.
    rewrite !to_N_byte_of by lia.
    unfold is_continuation.
    replace ((224 + c / 4096 - 224) * 4096 + (128 + (c / 64) mod 64 - 128) * 64
             + (128 + c mod 64 - 128))%N with c by lia.
    rewrite Hs. decide_test. reflexivity. }
  apply N.ltb_ge in H3.
  destruct (c <? 1114112)%N eqn:H4; [|discriminate].
  intros E; some_inv E bs. apply N.ltb_lt in H4.
  change ([byte_of (240 + c / 262144); byte_of (128 + (c / 4096) mod 64);
           byte_of (128 + (c / 64) mod 64); byte_of (128 + c mod 64)] ++ rest)
    with (byte_of (240 + c / 262144) :: byte_of (128 + (c / 4096) mod 64)
            :: byte_of (128 + (c / 64) mod 64) :: byte_of (128 + c mod 64)
            :: rest).
  rewrite decode_utf8_cons. cbv zeta.
  rewrite !to_N_byte_of by lia.
  unfold is_continuation.
  replace ((240 + c / 262144 - 240) * 262144
           + (128 + (c / 4096) mod 64 - 128) * 4096
           + (128 + (c / 64) mod 64 - 128) * 64 + (128 + c mod 64 - 128))%N
    with c by lia.
  decide_test. reflexivity.
Qed.

Lemma decode_encode_utf8 (s : str) (b : bytes) :
  encode_utf8 s = inr b -> decode_utf8 b = Some s.
Proof.
  revert b. induction s as [|c s IH]; simpl; intros b H.
  - injection H as <-. reflexivity.
  - destruct (utf8_char c) as [bs|] eqn:E; [|discriminate].
    destruct (encode_utf8 s) as [e|b'] eqn:E'; [discriminate|].
    simpl in H. injection H as <-.
    rewrite (decode_utf8_char c bs b' E), (IH b' eq_refl). reflexivity.
Qed.

Lemma replace_crlf_no_cr (s : str) : no_cr s = true -> replace_crlf s = s.
Proof.
  induction s as [|c s IH]; [reflexivity|].
  intros H. simpl in H. apply andb_true_iff in H as [Hc Hs].
  cbn [replace_crlf]. destruct s as [|d s]; [reflexivity|].
  apply negb_true_iff in Hc. rewrite Hc. cbn [andb].
  rewrite (IH Hs). reflexivity.
Qed.

Lemma replace_cr_no_cr (s : str) :
  no_cr s = true -> replace_char 13%N [10%N] s = s.
Proof.
  unfold replace_char. induction s as [|c s IH]; [reflexivity|].
  intros H. simpl in H. apply andb_true_iff in H as [Hc Hs].
  apply negb_true_iff in Hc. cbn [flat_map]. rewrite Hc, (IH Hs). reflexivity.
Qed.

Lemma replace_entities (s : str) :
  replace_char 62%N (lit "&gt;")
    (replace_char 60%N (lit "&lt;") (replace_char 38%N (lit "&amp;") s))
  = flat_map escape_char s.
Proof.
  unfold replace_char. induction s as [|c s IH]; [reflexivity|].
  cbn [flat_map]. rewrite !flat_map_app. f_equal; [|exact IH].
  unfold escape_char.
  destruct (c =? 38)%N eqn:E1; [reflexivity|].
  cbn [flat_map List.app]. destruct (c =? 60)%N eqn:E2; [reflexivity|].
  cbn [flat_map List.app]. destruct (c =? 62)%N eqn:E3; reflexivity.
Qed.














Lemma plist_induction (P : plist -> Prop) :
  (forall s, P (PStr s)) ->
  (forall b, P (PBool b)) ->
  (forall n, P (PInt n)) ->
  (forall r, P (PReal r)) ->
  (forall d, P (PData d)) ->
  (forall d, P (PDate d)) ->
  (forall n, P (PUid n)) ->
  P PNone ->
  (forall l, Forall P l -> P (PList l)) ->
  (forall d, Forall (fun item => P (snd item)) d -> P (PDict d)) ->
  forall v, P v.
Proof.
  intros Hs Hb Hi Hr Hd Hdt Hu Hn Hl Hm.
  fix IH 1. intros [s|b|n|r|d|d|n| |l|d].
  - apply Hs.
  - apply Hb.
  - apply Hi.
  - apply Hr.
  - apply Hd.
  - apply Hdt.
  - apply Hu.
  - apply Hn.
  - apply Hl.
    revert l. fix IHl 1. intros [|v l].
    + constructor.
    + constructor; [apply IH | apply IHl].
  - apply Hm.
    revert d. fix IHd 1. intros [|[k v] d].
    + constructor.
    + constructor; [apply IH | apply IHd].
Qed.






















(** ** The round trip of the manifest *)




(** ** The calls of [create], case by case *)

Lemma create_cases (self : Manifest) (host : str) (secure : bool)
  (filehandle : option nat) (w : World) :
  create self host secure filehandle w
  = match getitem (info self) (lit "CFBundleIdentifier") with
    | inl e => (inl e, w)
    | inr identifier =>
        match getitem (info self) (lit "CFBundleShortVersionString") with
        | inl e => (inl e, w)
        | inr version =>
            match dumps (manifest_document host identifier version
                           (appname self)) false with
            | inl e => (inl e, w)
            | inr data =>
                match filehandle with
                | None => (inr data, w)
                | Some fh =>
                    match nth_error (files w) fh with
                    | Some (Some content) =>
                        (inr data,
                         mkWorld (handles w)
                           (update fh (Some (content ++ data)) (files w))
                           (stdout w))
                    | _ =>
                        (inl (ValueError "I/O operation on closed file."), w)
                    end
                end
            end
        end
    end.
Proof.
  unfold create, bind, lift, manifest_document.
  destruct (getitem (info self) (lit "CFBundleIdentifier"))
    as [e|identifier]; [reflexivity|].
  destruct (getitem (info self) (lit "CFBundleShortVersionString"))
    as [e|version]; [reflexivity|].
  match goal with
  | |- context [dumps ?d false] => destruct (dumps d false) as [e|out]
  end; [reflexivity|].
  destruct filehandle as [fh|]; [|reflexivity].
  unfold IO_write. destruct (nth_error (files w) fh) as [[content|]|];
    reflexivity.
Qed.

Lemma nth_error_update_same (A : Type) (i : nat) (x y : A) (l : list A) :
  nth_error l i = Some y -> nth_error (update i x l) i = Some x.
Proof.
  revert i. induction l as [|a l IH]; intros [|i]; simpl; try discriminate.
  - reflexivity.
  - apply IH.
Qed.

Lemma nth_error_update_other (A : Type) (i j : nat) (x : A) (l : list A) :
  i <> j -> nth_error (update i x l) j = nth_error l j.
Proof.
  revert i j. induction l as [|a l IH]; intros [|i] [|j] H; simpl; auto.
  congruence.
Qed.

(** X7.  A call with a file object that returns has appended the bytes it
    returns to that file, once; the other files, the archive handles and
    the output are as they were, and the call without a file object returns
    the same bytes. *)
Theorem create_writes_what_it_returns
  (self : Manifest) (host : str) (secure : bool) (fh : nat)
  (w w' : World) (data : bytes) :
  create self host secure (Some fh) w = (inr data, w') ->
  exists content,
    nth_error (files w) fh = Some (Some content)
    /\ nth_error (files w') fh = Some (Some (content ++ data))
    /\ (forall other, other <> fh ->
          nth_error (files w') other = nth_error (files w) other)
    /\ handles w' = handles w
    /\ stdout w' = stdout w
    /\ create self host secure None w = (inr data, w).
Proof.
  rewrite !create_cases.
  destruct (getitem (info self) (lit "CFBundleIdentifier"))
    as [e|identifier]; [discriminate|].
  destruct (getitem (info self) (lit "CFBundleShortVersionString"))
    as [e|version]; [discriminate|].
  destruct (dumps (manifest_document host identifier version (appname self))
              false) as [e|out]; [discriminate|].
  destruct (nth_error (files w) fh) as [[content|]|] eqn:Hfh;
    try discriminate.
  intros H. injection H as <- <-. exists content. cbn [files handles stdout].
  repeat split.
  - apply nth_error_update_same with (y := Some content). exact Hfh.
  - intros other Hother. apply nth_error_update_other. congruence.
Qed.

(** X8.  A call that raises, whatever it raises, has written nothing: the
    world is as it was. *)
Theorem create_failure_changes_nothing
  (self : Manifest) (host : str) (secure : bool) (filehandle : option nat)
  (w w' : World) (e : exn) :
  create self host secure filehandle w = (inl e, w') -> w' = w.
Proof.
  rewrite create_cases.
  destruct (getitem (info self) (lit "CFBundleIdentifier"))
    as [e0|identifier]; [congruence|].
  destruct (getitem (info self) (lit "CFBundleShortVersionString"))
    as [e0|version]; [congruence|].
  destruct (dumps (manifest_document host identifier version (appname self))
              false) as [e0|out]; [congruence|].
  destruct filehandle as [fh|]; [|discriminate].
  destruct (nth_error (files w) fh) as [[content|]|]; congruence.
Qed.

(** ** What the writer asks of a string *)

(** The shape of [text.replace("\r\n", "\n")], for proofs by cases. *)
Lemma replace_crlf_shape (P : str -> str -> Prop) :
  P [] [] ->
  (forall c, P [c] [c]) ->
  (forall s, P s (replace_crlf s) ->
             P (13%N :: 10%N :: s) (10%N :: replace_crlf s)) ->
  (forall c d s,
      ((c =? 13) && (d =? 10))%N = false ->
      P (d :: s) (replace_crlf (d :: s)) ->
      P (c :: d :: s) (c :: replace_crlf (d :: s))) ->
  forall s, P s (replace_crlf s).
Proof.
  intros Hnil Hone Hcrlf Hother s.
  assert (H : forall n s, List.length s <= n -> P s (replace_crlf s)).
  { clear s. induction n as [|n IH]; intros s L.
    - destruct s; [exact Hnil | simpl in L; lia].
    - destruct s as [|c [|d s]]; [exact Hnil | apply Hone |].
      cbn [replace_crlf].
      destruct ((c =? 13) && (d =? 10))%N eqn:E.
      + apply andb_true_iff in E as [Ec Ed].
        apply N.eqb_eq in Ec, Ed. subst c d.
        apply Hcrlf. apply IH. simpl in L. lia.
      + apply Hother; [exact E|]. apply IH. simpl in L |- *. lia. }
  apply (H (List.length s)). apply Nat.le_refl.
Qed.

Lemma replace_crlf_control (s : str) :
  existsb is_control (replace_crlf s) = existsb is_control s.
Proof.
  apply (replace_crlf_shape
           (fun s r => existsb is_control r = existsb is_control s)).
  - reflexivity.
  - reflexivity.
  - intros t H. cbn [existsb]. rewrite H. reflexivity.
  - intros c d t _ H. cbn [existsb] in *. rewrite H. reflexivity.
Qed.

Lemma replace_crlf_encodable (s : str) :
  forallb encodable (replace_crlf s) = forallb encodable s.
Proof.
  apply (replace_crlf_shape
           (fun s r => forallb encodable r = forallb encodable s)).
  - reflexivity.
  - reflexivity.
  - intros t H. cbn [forallb]. rewrite H. reflexivity.
  - intros c d t _ H. cbn [forallb] in *. rewrite H. reflexivity.
Qed.

Lemma replace_char_control (old : char) (new : str) (s : str) :
  is_control old = false ->
  existsb is_control new = false ->
  existsb is_control (replace_char old new s) = existsb is_control s.
Proof.
  intros Hold Hnew. unfold replace_char.
  induction s as [|c s IH]; [reflexivity|].
  cbn [flat_map existsb]. rewrite existsb_app, IH.
  destruct (c =? old)%N eqn:E.
  - apply N.eqb_eq in E. subst c. rewrite Hold, Hnew. reflexivity.
  - cbn [existsb]. rewrite orb_false_r. reflexivity.
Qed.

Lemma replace_char_encodable (old : char) (new : str) (s : str) :
  encodable old = true ->
  forallb encodable new = true ->
  forallb encodable (replace_char old new s) = forallb encodable s.
Proof.
  intros Hold Hnew. unfold replace_char.
  induction s as [|c s IH]; [reflexivity|].
  cbn [flat_map forallb]. rewrite forallb_app, IH.
  destruct (c =? old)%N eqn:E.
  - apply N.eqb_eq in E. subst c. rewrite Hold, Hnew. reflexivity.
  - cbn [forallb]. rewrite andb_true_r. reflexivity.
Qed.

Lemma replace_cr_has_no_cr (s : str) :
  no_cr (replace_char 13%N [10%N] s) = true.
Proof.
  unfold no_cr, replace_char. induction s as [|c s IH]; [reflexivity|].
  cbn [flat_map]. rewrite forallb_app.
  unfold char, str in *. rewrite IH, andb_true_r.
  destruct (c =? 13)%N eqn:E; cbn [forallb]; [reflexivity|].
  rewrite E. reflexivity.
Qed.

(** [_escape] sees a string through its line endings only. *)
Lemma escape_universal_newlines (s : str) :
  _escape (universal_newlines s) = _escape s.
Proof.
  unfold _escape.
  assert (Hc : existsb is_control (universal_newlines s)
               = existsb is_control s).
  { unfold universal_newlines.
    rewrite replace_char_control by reflexivity. apply replace_crlf_control. }
  rewrite Hc. destruct (existsb is_control s); [reflexivity|]. cbv zeta.
  assert (Hn : no_cr (universal_newlines s) = true)
    by apply replace_cr_has_no_cr.
  rewrite (replace_crlf_no_cr _ Hn), (replace_cr_no_cr _ Hn). reflexivity.
Qed.

Lemma escape_encodable (s e : str) :
  _escape s = inr e -> forallb encodable e = forallb encodable s.
Proof.
  unfold _escape. destruct (existsb is_control s); [discriminate|].
  cbv zeta. intros H. injection H as <-.
  rewrite !replace_char_encodable by reflexivity.
  apply replace_crlf_encodable.
Qed.

Lemma encode_utf8_encodable (s : str) :
  forallb encodable s = true -> exists b, encode_utf8 s = inr b.
Proof.
  induction s as [|c s IH]; simpl; intros H.
  - exists []. reflexivity.
  - apply andb_true_iff in H as [Hc Hs]. unfold encodable in Hc.
    destruct (utf8_char c) as [b|]; [|discriminate].
    destruct (IH Hs) as [r ->]. exists (b ++ r). reflexivity.
Qed.

Lemma encode_utf8_not_encodable (s : str) :
  forallb encodable s = false -> encode_utf8 s = inl UnicodeEncodeError.
Proof.
  induction s as [|c s IH]; simpl; intros H; [discriminate|].
  unfold encodable in H at 1.
  destruct (utf8_char c) as [b|]; [|reflexivity].
  cbn [andb] in H. rewrite (IH H). reflexivity.
Qed.

(** The writer takes a string element exactly when the string is
    [writable]; it refuses a control character first, and a character
    without an encoding after that. *)
Lemma string_text_cases (s : str) :
  (writable s = true /\ exists u, string_text s = inr u)
  \/ (existsb is_control s = true
      /\ string_text s
         = inl (ValueError
                  "strings can't contain control characters; use bytes instead"))
  \/ (existsb is_control s = false /\ forallb encodable s = false
      /\ string_text s = inl UnicodeEncodeError).
Proof.
  unfold string_text, writable.
  destruct (existsb is_control s) eqn:Hc.
  - right. left. unfold _escape. rewrite Hc. split; reflexivity.
  - destruct (_escape s) as [e|t] eqn:He.
    { unfold _escape in He. rewrite Hc in He. discriminate. }
    cbn [ebind negb andb].
    rewrite <- (escape_encodable s t He).
    destruct (forallb encodable t) eqn:Ht.
    + left. split; [reflexivity|]. apply encode_utf8_encodable. exact Ht.
    + right. right. repeat split. apply encode_utf8_not_encodable. exact Ht.
Qed.

Lemma string_text_writable (s : str) :
  (exists u, string_text s = inr u) <-> writable s = true.
Proof.
  destruct (string_text_cases s) as [[Hw Hu] | [[Hc He] | [Hc [Hn He]]]].
  - split; auto.
  - unfold writable. rewrite Hc, He. split; [intros [u H]|]; discriminate.
  - unfold writable. rewrite Hc, Hn, He. split; [intros [u H]|]; discriminate.
Qed.

(** ** The host, as [create] takes it *)

Lemma create_same_text (self : Manifest) (host1 host2 : str) (secure : bool)
  (filehandle : option nat) (w : World) :
  string_text host1 = string_text host2 ->
  create self host1 secure filehandle w
  = create self host2 secure filehandle w.
Proof.
  intros H. rewrite !create_cases.
  destruct (getitem (info self) (lit "CFBundleIdentifier"))
    as [e|identifier]; [reflexivity|].
  destruct (getitem (info self) (lit "CFBundleShortVersionString"))
    as [e|version]; [reflexivity|].
  rewrite !dumps_manifest_document, H. reflexivity.
Qed.

(** X9.  [create] reads the host up to its line endings: a host and the same
    host with every [\r\n] and every [\r] turned into [\n] give the same
    call, result and effect. *)
Theorem create_ignores_line_ending_style
  (self : Manifest) (host : str) (secure : bool) (filehandle : option nat)
  (w : World) :
  create self (universal_newlines host) secure filehandle w
  = create self host secure filehandle w.
Proof.
  apply create_same_text. unfold string_text.
  rewrite escape_universal_newlines. reflexivity.
Qed.

Lemma create_host_error (self : Manifest) (host : str) (secure : bool)
  (filehandle : option nat) (w : World) (identifier version : plist)
  (e : exn) :
  getitem (info self) (lit "CFBundleIdentifier") = inr identifier ->
  getitem (info self) (lit "CFBundleShortVersionString") = inr version ->
  string_text host = inl e ->
  create self host secure filehandle w = (inl e, w).
Proof.
  intros Hi Hv He. rewrite create_cases, Hi, Hv.
  rewrite dumps_manifest_document, He. reflexivity.
Qed.

(** X10.  A control character in the host (below [U+0020], other than tab,
    line feed and carriage return) makes [create] raise [ValueError], whatever
    the two metadata values and the name are, and nothing is written. *)
Theorem create_rejects_control_character
  (self : Manifest) (host : str) (secure : bool) (filehandle : option nat)
  (w : World) (identifier version : plist) :
  getitem (info self) (lit "CFBundleIdentifier") = inr identifier ->
  getitem (info self) (lit "CFBundleShortVersionString") = inr version ->
  existsb is_control host = true ->
  create self host secure filehandle w
  = (inl (ValueError
            "strings can't contain control characters; use bytes instead"),
     w).
Proof.
  intros Hi Hv Hc. apply (create_host_error _ _ _ _ _ _ _ _ Hi Hv).
  destruct (string_text_cases host) as [[Hw _] | [[_ He] | [Hn _]]].
  - unfold writable in Hw. rewrite Hc in Hw. discriminate.
  - exact He.
  - congruence.
Qed.

(** X11.  A host free of control characters that holds a surrogate, or a
    number above the last code point, makes [create] raise
    [UnicodeEncodeError], whatever the two metadata values and the name are,
    and nothing is written. *)
Theorem create_rejects_unencodable_host
  (self : Manifest) (host : str) (secure : bool) (filehandle : option nat)
  (w : World) (identifier version : plist) :
  getitem (info self) (lit "CFBundleIdentifier") = inr identifier ->
  getitem (info self) (lit "CFBundleShortVersionString") = inr version ->
  existsb is_control host = false ->
  forallb encodable host = false ->
  create self host secure filehandle w = (inl UnicodeEncodeError, w).
Proof.
  intros Hi Hv Hc Hn. apply (create_host_error _ _ _ _ _ _ _ _ Hi Hv).
  destruct (string_text_cases host) as [[Hw _] | [[Hc' _] | [_ [_ He]]]].
  - unfold writable in Hw. rewrite Hc, Hn in Hw. discriminate.
  - congruence.
  - exact He.
Qed.

(** X12.  With strings for the two metadata values, [create] returns exactly
    when the host, the two values and the name are [writable]. *)
Theorem create_returns_iff_writable
  (self : Manifest) (host : str) (secure : bool) (w : World)
  (identifier version : str) :
  getitem (info self) (lit "CFBundleIdentifier") = inr (PStr identifier) ->
  getitem (info self) (lit "CFBundleShortVersionString")
  = inr (PStr version) ->
  (exists data, create self host secure None w = (inr data, w))
  <-> writable host && writable identifier && writable version
      && writable (appname self) = true.
Proof.
  intros Hi Hv. rewrite create_cases, Hi, Hv, dumps_manifest_document.
  cbn [write_value]. rewrite !simple_element_string.
  rewrite !andb_true_iff, <- !string_text_writable.
  destruct (string_text host) as [e|u].
  { cbn [ebind]. split; [intros [d H]; discriminate|].
    intros [[[[x H] _] _] _]. discriminate. }
  destruct (string_text identifier) as [e|i].
  { cbn [ebind]. split; [intros [d H]; discriminate|].
    intros [[[_ [x H]] _] _]. discriminate. }
  destruct (string_text version) as [e|v].
  { cbn [ebind]. split; [intros [d H]; discriminate|].
    intros [[_ [x H]] _]. discriminate. }
  destruct (string_text (appname self)) as [e|t].
  { cbn [ebind]. split; [intros [d H]; discriminate|].
    intros [_ [x H]]. discriminate. }
  cbn [ebind]. split; [|eexists; reflexivity].
  intros _. repeat split; eexists; reflexivity.
Qed.

Lemma escape_char_inj (x y : char) (a b : str) :
  escape_char x ++ a = escape_char y ++ b -> x = y /\ a = b.
Proof.
  unfold escape_char.
  destruct (x =? 38)%N eqn:X1; [apply N.eqb_eq in X1 | apply N.eqb_neq in X1];
  [|destruct (x =? 60)%N eqn:X2;
    [apply N.eqb_eq in X2 | apply N.eqb_neq in X2];
    [|destruct (x =? 62)%N eqn:X3;
      [apply N.eqb_eq in X3 | apply N.eqb_neq in X3]]];
  (destruct (y =? 38)%N eqn:Y1;
   [apply N.eqb_eq in Y1 | apply N.eqb_neq in Y1];
   [|destruct (y =? 60)%N eqn:Y2;
     [apply N.eqb_eq in Y2 | apply N.eqb_neq in Y2];
     [|destruct (y =? 62)%N eqn:Y3;
       [apply N.eqb_eq in Y3 | apply N.eqb_neq in Y3]]]);
  cbn; intros H; injection H; intros; subst;
  try congruence; try (split; congruence).
Qed.

Lemma escape_chars_inj (a b : str) :
  flat_map escape_char a = flat_map escape_char b -> a = b.
Proof.
  revert b. induction a as [|x a IH]; intros [|y b]; cbn [flat_map]; intros H.
  - reflexivity.
  - exfalso. revert H. unfold escape_char.
    destruct (y =? 38)%N; [discriminate|].
    destruct (y =? 60)%N; [discriminate|].
    destruct (y =? 62)%N; discriminate.
  - exfalso. revert H. unfold escape_char.
    destruct (x =? 38)%N; [discriminate|].
    destruct (x =? 60)%N; [discriminate|].
    destruct (x =? 62)%N; discriminate.
  - apply escape_char_inj in H as [-> H]. f_equal. apply IH. exact H.
Qed.

Lemma escape_universal (s e : str) :
  _escape s = inr e -> e = flat_map escape_char (universal_newlines s).
Proof.
  unfold _escape. destruct (existsb is_control s); [discriminate|].
  cbv zeta. rewrite replace_entities. unfold universal_newlines. congruence.
Qed.

Lemma string_text_inj (a b : str) (u : bytes) :
  string_text a = inr u -> string_text b = inr u ->
  universal_newlines a = universal_newlines b.
Proof.
  unfold string_text. intros Ha Hb.
  apply ebind_inr in Ha as [ea [Ha Hua]].
  apply ebind_inr in Hb as [eb [Hb Hub]].
  apply decode_encode_utf8 in Hua, Hub.
  apply escape_universal in Ha, Hb.
  apply escape_chars_inj. congruence.
Qed.

Lemma manifest_xml_url (u u' i v t : bytes) :
  manifest_xml u i v t = manifest_xml u' i v t -> u = u'.
Proof.
  unfold manifest_xml. intros H.
  do 12 apply app_inv_head in H.
  apply app_inv_tail in H. unfold xml_line in H.
  apply app_inv_head in H. apply app_inv_tail in H.
  apply app_inv_head in H. apply app_inv_tail in H. exact H.
Qed.

(** X13.  Two calls on the same object that return the same bytes were given
    the same host, up to line endings: the manifest tells hosts apart. *)
Theorem create_tells_hosts_apart
  (self : Manifest) (host1 host2 : str) (secure1 secure2 : bool)
  (fh1 fh2 : option nat) (w1 w2 : World) (data : bytes) :
  fst (create self host1 secure1 fh1 w1) = inr data ->
  fst (create self host2 secure2 fh2 w2) = inr data ->
  universal_newlines host1 = universal_newlines host2.
Proof.
  intros H1 H2.
  apply create_result in H1 as [i1 [v1 [Hi1 [Hv1 Hd1]]]].
  apply create_result in H2 as [i2 [v2 [Hi2 [Hv2 Hd2]]]].
  assert (i2 = i1) by congruence. assert (v2 = v1) by congruence. subst i2 v2.
  rewrite dumps_manifest_document in Hd1, Hd2.
  apply ebind_inr in Hd1 as [u1 [Hu1 Hd1]].
  apply ebind_inr in Hd2 as [u2 [Hu2 Hd2]].
  destruct (write_value false 4 i1) as [e|i]; [discriminate|].
  destruct (write_value false 4 v1) as [e|v]; [discriminate|].
  destruct (string_text (appname self)) as [e|t]; [discriminate|].
  cbn [ebind] in Hd1, Hd2.
  assert (u1 = u2) by (apply (manifest_xml_url u1 u2 i v t); congruence).
  subst u2. exact (string_text_inj host1 host2 u1 Hu1 Hu2).
Qed.

(** ** The order of the keys *)

Lemma sorted_items_ascending (A : Type) (l : list (str * A)) :
  keys_ascending l = true -> sorted_items l = l.
Proof.
  unfold sorted_items. induction l as [|a l IH]; [reflexivity|].
  cbn [keys_ascending fold_right]. destruct l as [|b l]; [reflexivity|].
  intros H. apply andb_true_iff in H as [Hab Hl].
  rewrite (IH Hl). cbn [insert_by_key]. rewrite Hab. reflexivity.
Qed.

Lemma write_value_scalar (sort_keys : bool) (level : nat) (v : plist) :
  scalar v = true ->
  write_value sort_keys level v = write_value false level v.
Proof. destruct v; try reflexivity; discriminate. Qed.

(** X14.  The keys of the dictionary display in [create] ascend on every
    level: when the two metadata values are neither arrays nor mappings, the
    bytes [create] returns are those of [plistlib.dumps] with [sort_keys] on,
    its default, as well. *)
Theorem create_keys_are_in_sorted_order
  (self : Manifest) (host : str) (secure : bool) (filehandle : option nat)
  (w : World) (identifier version : plist) (data : bytes) :
  getitem (info self) (lit "CFBundleIdentifier") = inr identifier ->
  getitem (info self) (lit "CFBundleShortVersionString") = inr version ->
  scalar identifier = true ->
  scalar version = true ->
  fst (create self host secure filehandle w) = inr data ->
  dumps (manifest_document host identifier version (appname self)) true
  = inr data.
Proof.
  intros Hi Hv Si Sv H.
  apply create_result in H as [i [v [Hi' [Hv' Hd]]]].
  assert (i = identifier) by congruence.
  assert (v = version) by congruence. subst i v.
  rewrite <- Hd. unfold dumps, plist_write, manifest_document.
  cbn [write_value map fst snd].
  rewrite !sorted_items_ascending by reflexivity.
  rewrite (write_value_scalar true 4 identifier Si).
  rewrite (write_value_scalar true 4 version Sv).
  reflexivity.
Qed.

(** ** The bytes are text *)

Lemma is_text_app (a b : bytes) : is_text a -> is_text b -> is_text (a ++ b).
Proof.
  intros [sa Ha] [sb Hb]. exists (sa ++ sb).
  rewrite encode_utf8_app, Ha, Hb. reflexivity.
Qed.

Lemma is_text_ascii (bs : bytes) : forallb ascii_octet bs = true -> is_text bs.
Proof.
  intros H. exists (map Byte.to_N bs).
  induction bs as [|b bs IH]; [reflexivity|].
  cbn [forallb] in H. apply andb_true_iff in H as [Hb Hbs].
  cbn [map encode_utf8]. unfold utf8_char. unfold ascii_octet in Hb.
  rewrite Hb, (IH Hbs). cbn [ebind List.app].
  unfold byte_of. rewrite Byte.of_to_N. reflexivity.
Qed.

Lemma tabs_ascii (n : nat) : forallb ascii_octet (repeat x09 n) = true.
Proof. induction n as [|n IH]; [reflexivity | exact IH]. Qed.

Lemma writeln_text (level : nat) (line : str) (out : bytes) :
  writeln level line = inr out -> is_text out.
Proof.
  unfold writeln. destruct line as [|c line]; intros H.
  - injection H as <-. apply is_text_ascii. reflexivity.
  - apply ebind_inr in H as [enc [Henc H]]. injection H as <-.
    apply is_text_app; [apply is_text_ascii, tabs_ascii|].
    apply is_text_app; [exists (c :: line); exact Henc|].
    apply is_text_ascii. reflexivity.
Qed.

Lemma simple_element_text (level : nat) (element : string)
  (value : option str) (out : bytes) :
  simple_element level element value = inr out -> is_text out.
Proof.
  unfold simple_element. destruct value as [v|]; intros H.
  - apply ebind_inr in H as [v' [_ H]]. exact (writeln_text _ _ _ H).
  - exact (writeln_text _ _ _ H).
Qed.

Lemma b64_digit_ascii (n : N) : ascii_octet (b64_digit n) = true.
Proof.
  unfold b64_digit, ascii_octet.
  destruct (n <? 26)%N eqn:E1.
  { apply N.ltb_lt in E1. rewrite to_N_byte_of by lia. apply N.ltb_lt. lia. }
  destruct (n <? 52)%N eqn:E2.
  { apply N.ltb_lt in E2. rewrite to_N_byte_of by lia. apply N.ltb_lt. lia. }
  destruct (n <? 62)%N eqn:E3.
  { apply N.ltb_lt in E3. rewrite to_N_byte_of by lia. apply N.ltb_lt. lia. }
  destruct (n =? 62)%N; reflexivity.
Qed.

Lemma b64_encode_ascii (data : bytes) :
  forallb ascii_octet (b64_encode data) = true.
Proof.
  assert (H : forall n data, List.length data <= n ->
                             forallb ascii_octet (b64_encode data) = true).
  { clear data. induction n as [|n IH]; intros data L.
    - destruct data; [reflexivity | simpl in L; lia].
    - destruct data as [|a [|b [|c rest]]]; cbn [b64_encode]; cbv zeta.
      + reflexivity.
      + cbn [forallb]. rewrite !b64_digit_ascii. reflexivity.
      + cbn [forallb]. rewrite !b64_digit_ascii. reflexivity.
      + rewrite forallb_app. cbn [forallb]. rewrite !b64_digit_ascii.
        cbn [andb]. apply IH. simpl in L. lia. }
  apply (H (List.length data)). apply Nat.le_refl.
Qed.

Lemma base64_lines_ascii (level fuel size : nat) (s : bytes) :
  forallb ascii_octet
    (flat_map (writeln_bytes level) (base64_lines fuel size s)) = true.
Proof.
  revert s. induction fuel as [|fuel IH]; intros s.
  - destruct s; reflexivity.
  - destruct s as [|b s]; [reflexivity|].
    cbn [base64_lines flat_map]. rewrite forallb_app, IH, andb_true_r.
    unfold writeln_bytes.
    destruct (b64_encode (firstn size (b :: s))) as [|x line] eqn:E;
      [reflexivity|].
    rewrite forallb_app, tabs_ascii, forallb_app, <- E, b64_encode_ascii.
    reflexivity.
Qed.

Lemma write_bytes_text (level : nat) (data out : bytes) :
  write_bytes level data = inr out -> is_text out.
Proof.
  unfold write_bytes. intros H.
  apply ebind_inr in H as [open [Hopen H]]. cbv zeta in H.
  apply ebind_inr in H as [close [Hclose H]]. injection H as <-.
  apply is_text_app; [exact (writeln_text _ _ _ Hopen)|].
  apply is_text_app; [|exact (writeln_text _ _ _ Hclose)].
  apply is_text_ascii, base64_lines_ascii.
Qed.

Lemma write_each_text (items : list (exn + bytes)) (out : bytes) :
  Forall (fun r => forall o, r = inr o -> is_text o) items ->
  write_each items = inr out -> is_text out.
Proof.
  intros F. revert out. induction F as [|r items Hr _ IH]; intros out H.
  - injection H as <-. exists []. reflexivity.
  - cbn [write_each] in H.
    apply ebind_inr in H as [v [Hv H]].
    apply ebind_inr in H as [rest [Hrest H]]. injection H as <-.
    apply is_text_app; [exact (Hr v Hv) | exact (IH rest Hrest)].
Qed.

Lemma write_items_text (level : nat) (items : list (str * (exn + bytes)))
  (out : bytes) :
  Forall (fun it => forall o, snd it = inr o -> is_text o) items ->
  write_items level items = inr out -> is_text out.
Proof.
  intros F. revert out. induction F as [|[k r] items Hr _ IH]; intros out H.
  - injection H as <-. exists []. reflexivity.
  - cbn [write_items] in H.
    apply ebind_inr in H as [key [Hkey H]].
    apply ebind_inr in H as [v [Hv H]].
    apply ebind_inr in H as [rest [Hrest H]]. injection H as <-.
    apply is_text_app; [exact (simple_element_text _ _ _ _ Hkey)|].
    apply is_text_app; [exact (Hr v Hv) | exact (IH rest Hrest)].
Qed.

Lemma Forall_insert_by_key (A : Type) (P : str * A -> Prop) (item : str * A)
  (l : list (str * A)) :
  P item -> Forall P l -> Forall P (insert_by_key item l).
Proof.
  intros Hi F. induction F as [|x l Hx F IH]; cbn [insert_by_key].
  - constructor; [exact Hi | constructor].
  - destruct (str_ltb (fst item) (fst x)).
    + constructor; [exact Hi|]. constructor; assumption.
    + constructor; assumption.
Qed.

Lemma Forall_sorted_items (A : Type) (P : str * A -> Prop)
  (l : list (str * A)) :
  Forall P l -> Forall P (sorted_items l).
Proof.
  unfold sorted_items. induction 1 as [|x l Hx F IH]; cbn [fold_right].
  - constructor.
  - apply Forall_insert_by_key; assumption.
Qed.

(** Whatever the writer makes of a value is the encoding of a text. *)
Lemma write_value_text (v : plist) :
  forall (sort_keys : bool) (level : nat) (out : bytes),
    write_value sort_keys level v = inr out -> is_text out.
Proof.
  induction v as [s|b|n|r|d|d|n| |l IH|d IH] using plist_induction;
    intros sort_keys level out H.
  - exact (simple_element_text _ _ _ _ H).
  - destruct b; exact (simple_element_text _ _ _ _ H).
  - cbn [write_value] in H.
    destruct ((- 2 ^ 63 <=? n) && (n <? 2 ^ 64))%Z; [|discriminate].
    exact (simple_element_text _ _ _ _ H).
  - exact (simple_element_text _ _ _ _ H).
  - exact (write_bytes_text _ _ _ H).
  - exact (simple_element_text _ _ _ _ H).
  - discriminate.
  - discriminate.
  - destruct l as [|v l]; [exact (simple_element_text _ _ _ _ H)|].
    cbn [write_value] in H.
    apply ebind_inr in H as [open [Hopen H]].
    apply ebind_inr in H as [body [Hbody H]].
    apply ebind_inr in H as [close [Hclose H]]. injection H as <-.
    apply is_text_app; [exact (writeln_text _ _ _ Hopen)|].
    apply is_text_app; [|exact (writeln_text _ _ _ Hclose)].
    apply (write_each_text _ _) in Hbody; [exact Hbody|].
    apply Forall_map. revert IH. apply Forall_impl.
    intros x Hx o Ho. exact (Hx _ _ _ Ho).
  - destruct d as [|item d]; [exact (simple_element_text _ _ _ _ H)|].
    cbn [write_value] in H.
    apply ebind_inr in H as [open [Hopen H]].
    apply ebind_inr in H as [body [Hbody H]].
    apply ebind_inr in H as [close [Hclose H]]. injection H as <-.
    apply is_text_app; [exact (writeln_text _ _ _ Hopen)|].
    apply is_text_app; [|exact (writeln_text _ _ _ Hclose)].
    apply (write_items_text _ _ _) in Hbody; [exact Hbody|].
    assert (F : Forall (fun it : str * (exn + bytes) =>
                          forall o, snd it = inr o -> is_text o)
                  (map (fun it => (fst it,
                                   write_value sort_keys (S level) (snd it)))
                     (item :: d))).
    { apply Forall_map. revert IH. apply Forall_impl.
      intros x Hx o Ho. exact (Hx _ _ _ Ho). }
    destruct sort_keys; [apply Forall_sorted_items|]; exact F.
Qed.

(** X15.  The bytes [create] returns are well-formed UTF-8, whatever the
    metadata values hold: decoding them, as the test does, cannot fail. *)
Theorem create_result_decodes
  (self : Manifest) (host : str) (secure : bool) (filehandle : option nat)
  (w : World) (data : bytes) :
  fst (create self host secure filehandle w) = inr data ->
  exists text, decode_utf8 data = Some text.
Proof.
  intros H. apply create_result in H as [i [v [_ [_ Hd]]]].
  unfold dumps, plist_write in Hd.
  apply ebind_inr in Hd as [doc [Hdoc Hd]]. injection Hd as <-.
  apply ebind_inr in Hdoc as [open [Hopen Hdoc]].
  apply ebind_inr in Hdoc as [body [Hbody Hdoc]].
  apply ebind_inr in Hdoc as [close [Hclose Hdoc]]. injection Hdoc as <-.
  assert (T : is_text (PLISTHEADER ++ open ++ body ++ close)).
  { apply is_text_app; [apply is_text_ascii; reflexivity|].
    apply is_text_app; [exact (writeln_text _ _ _ Hopen)|].
    apply is_text_app; [|exact (writeln_text _ _ _ Hclose)].
    exact (write_value_text _ _ _ _ Hbody). }
  destruct T as [s Hs]. exists s. apply decode_encode_utf8. exact Hs.
Qed.

(** ** From the archive to the manifest *)

(** X16.  The title of the manifest of an object [Manifest(path)] has returned
    is the detected name in UTF-8 as it stands: [_escape] finds nothing to
    refuse and nothing to replace in it. *)
Theorem detected_name_is_written_verbatim
  (unicode_alnum : char -> bool) (py_repr : str -> str)
  (disk : str -> exn + list (str * bytes))
  (plistlib_load : bytes -> exn + plist)
  (path host : str) (secure : bool) (filehandle : option nat)
  (w w1 w2 : World) (m : Manifest) (data : bytes) :
  Manifest_init unicode_alnum py_repr disk plistlib_load path w
  = (inr m, w1) ->
  fst (create m host secure filehandle w2) = inr data ->
  exists url i v title,
    encode_utf8 (appname m) = inr title
    /\ data = manifest_xml url i v title.
Proof.
  intros Hinit H.
  apply Manifest_init_world in Hinit as [_ [_ Hword]].
  apply create_result in H as [identifier [version [Hi [Hv Hd]]]].
  rewrite dumps_manifest_document in Hd.
  apply ebind_inr in Hd as [url [Hurl Hd]].
  apply ebind_inr in Hd as [i [Hwi Hd]].
  apply ebind_inr in Hd as [v [Hwv Hd]].
  apply ebind_inr in Hd as [title [Htitle Hd]].
  exists url, i, v, title. split; [|congruence].
  unfold string_text in Htitle.
  rewrite (escape_word unicode_alnum _ Hword) in Htitle. exact Htitle.
Qed.



(** ** The command line with a host *)



(** ** The command line with [--demo] *)

Lemma dumps_not_empty (value : plist) (sort_keys : bool) (data : bytes) :
  dumps value sort_keys = inr data -> data <> [].
Proof.
  unfold dumps. intros H. apply ebind_inr in H as [doc [_ H]].
  injection H as <-. discriminate.
Qed.

(** X19.  With [--demo] the file [manifest.plist] receives nothing: when the
    call of [create] in its [with] block is over, the file object holds
    no bytes, whether the call raised or returned, and when it returned,
    the bytes it returned are not empty and so are not what the file
    holds. *)
Theorem demo_manifest_file_stays_empty
  (Path_name : str -> str) (manifest : Manifest) (localhost : str)
  (port : Z) (w : World) :
  files (snd (_main_demo_manifest Path_name manifest localhost port w))
  = files w ++ [Some []]
  /\ forall f,
       fst (_main_demo_manifest Path_name manifest localhost port w) = inr f ->
       f = List.length (files w)
       /\ exists data,
            fst (create manifest
                   (demo_host Path_name manifest localhost port)
                   true None w) = inr data
            /\ data <> []
            /\ nth_error
                 (files
                    (snd (_main_demo_manifest Path_name manifest localhost
                            port w))) f
               <> Some (Some data).
Proof.
  unfold _main_demo_manifest. cbv zeta.
  unfold bind at 1 3 5. unfold open_wb. unfold bind.
  rewrite !create_cases.
  destruct (getitem (info manifest) (lit "CFBundleIdentifier"))
    as [e|identifier]; [split; [reflexivity | discriminate]|].
  destruct (getitem (info manifest) (lit "CFBundleShortVersionString"))
    as [e|version]; [split; [reflexivity | discriminate]|].
  destruct (dumps
              (manifest_document
                 (demo_host Path_name manifest localhost port)
                 identifier version (appname manifest)) false)
    as [e|data] eqn:Hd; [split; [reflexivity | discriminate]|].
  unfold ret. cbn [fst snd files].
  split; [reflexivity|]. intros f Hf. injection Hf as <-.
  split; [reflexivity|]. exists data.
  split; [reflexivity|]. apply dumps_not_empty in Hd.
  split; [exact Hd|].
  rewrite nth_error_app2 by apply Nat.le_refl. rewrite Nat.sub_diag.
  cbn [nth_error]. congruence.
Qed.

(** ** Instances of the further properties *)

Lemma group1_is_longest_name_witness :
  re_match_start ascii_only RE_PLIST_PATH
    (lit "Payload/" ++ lit "aXappYapp/Info.plist")
  = Some [(2, lit "Info.plist"); (1, lit "aXapp")]
  /\ exists c rest,
       lit "aXappYapp/Info.plist"
       = group 1 [(2, lit "Info.plist"); (1, lit "aXapp")]
         ++ c :: lit "app" ++ rest
       /\ group 1 [(2, lit "Info.plist"); (1, lit "aXapp")] <> []
       /\ forallb (is_word ascii_only)
            (group 1 [(2, lit "Info.plist"); (1, lit "aXapp")]) = true
       /\ c <> 10%N
       /\ forall name' c' rest',
            lit "aXappYapp/Info.plist" = name' ++ c' :: lit "app" ++ rest' ->
            forallb (is_word ascii_only) name' = true -> c' <> 10%N ->
            List.length name'
            <= List.length (group 1 [(2, lit "Info.plist"); (1, lit "aXapp")]).
Proof.
  split; [reflexivity|].
  apply (group1_is_longest_name ascii_only (lit "aXappYapp/Info.plist")
           [(2, lit "Info.plist"); (1, lit "aXapp")]).
  reflexivity.
Defined.

Lemma init_returns_only_if_witness :
  exists entries content,
    on_disk openterm_archive (lit "OpenTerm.ipa") = inr entries
    /\ _path openterm_object = lit "OpenTerm.ipa"
    /\ zfile openterm_object
       = mkZipFile (List.length (handles empty_world)) entries
    /\ appname openterm_object
       = _parse_app_name ascii_only (zfile openterm_object)
    /\ appname openterm_object <> []
    /\ forallb (is_word ascii_only) (appname openterm_object) = true
    /\ NameToInfo (plist_path (appname openterm_object)) entries
       = Some content
    /\ loads no_binary content = inr (info openterm_object)
    /\ mkWorld [true] [] []
       = mkWorld (handles empty_world ++ [true]) (files empty_world)
           (stdout empty_world)
    /\ is_open (zfile openterm_object) (mkWorld [true] [] []) = true.
Proof.
  apply (init_returns_only_if ascii_only quoted (on_disk openterm_archive)
           (loads no_binary) (lit "OpenTerm.ipa") empty_world
           (mkWorld [true] [] []) openterm_object).
  vm_compute. reflexivity.
Defined.


Lemma with_block_closes_its_archive_witness :
  exists r,
    fst (create openterm_object example_host true None (mkWorld [true] [] []))
    = r
    /\ fst (with_Manifest ascii_only quoted (on_disk openterm_archive)
              (loads no_binary) (lit "OpenTerm.ipa")
              (fun m => create m example_host true None) empty_world) = r
    /\ is_open (zfile openterm_object)
         (snd (with_Manifest ascii_only quoted (on_disk openterm_archive)
                 (loads no_binary) (lit "OpenTerm.ipa")
                 (fun m => create m example_host true None) empty_world))
       = false
    /\ (forall z, fp z <> fp (zfile openterm_object) ->
          is_open z
            (snd (with_Manifest ascii_only quoted (on_disk openterm_archive)
                    (loads no_binary) (lit "OpenTerm.ipa")
                    (fun m => create m example_host true None) empty_world))
          = is_open z (mkWorld [true] [] []))
    /\ files
         (snd (with_Manifest ascii_only quoted (on_disk openterm_archive)
                 (loads no_binary) (lit "OpenTerm.ipa")
                 (fun m => create m example_host true None) empty_world))
       = files (mkWorld [true] [] [])
    /\ stdout
         (snd (with_Manifest ascii_only quoted (on_disk openterm_archive)
                 (loads no_binary) (lit "OpenTerm.ipa")
                 (fun m => create m example_host true None) empty_world))
       = stdout (mkWorld [true] [] []).
Proof.
  eexists. split; [vm_compute; reflexivity|].
  apply (with_block_closes_its_archive ascii_only quoted
           (on_disk openterm_archive) (loads no_binary) bytes
           (lit "OpenTerm.ipa") (fun m => create m example_host true None)
           empty_world (mkWorld [true] [] []) (mkWorld [true] [] [])
           openterm_object).
  - vm_compute. reflexivity.
  - vm_compute. reflexivity.
Defined.

Lemma create_writes_what_it_returns_witness :
  exists data w',
    create openterm_manifest example_host true (Some 0)
      (mkWorld [] [Some (blit "old")] []) = (inr data, w')
    /\ exists content,
         nth_error (files (mkWorld [] [Some (blit "old")] [])) 0
         = Some (Some content)
         /\ nth_error (files w') 0 = Some (Some (content ++ data))
         /\ (forall other, other <> 0 ->
               nth_error (files w') other
               = nth_error (files (mkWorld [] [Some (blit "old")] [])) other)
         /\ handles w' = handles (mkWorld [] [Some (blit "old")] [])
         /\ stdout w' = stdout (mkWorld [] [Some (blit "old")] [])
         /\ create openterm_manifest example_host true None
              (mkWorld [] [Some (blit "old")] [])
            = (inr data, mkWorld [] [Some (blit "old")] []).
Proof.
  eexists. eexists. split; [vm_compute; reflexivity|].
  apply (create_writes_what_it_returns openterm_manifest example_host true 0
           (mkWorld [] [Some (blit "old")] [])).
  vm_compute. reflexivity.
Defined.

Lemma create_failure_changes_nothing_witness :
  create bare_object example_host true (Some 0) (mkWorld [true] [Some []] [])
  = (inl (KeyError (lit "CFBundleIdentifier")), mkWorld [true] [Some []] [])
  /\ mkWorld [true] [Some []] [] = mkWorld [true] [Some []] [].
Proof.
  split; [reflexivity|].
  apply (create_failure_changes_nothing bare_object example_host true
           (Some 0) (mkWorld [true] [Some []] []) (mkWorld [true] [Some []] [])
           (KeyError (lit "CFBundleIdentifier"))).
  reflexivity.
Defined.

Lemma create_rejects_control_character_witness :
  create openterm_manifest (lit "https://example.com/" ++ [0%N]) true
    (Some 0) (mkWorld [] [Some []] [])
  = (inl (ValueError
            "strings can't contain control characters; use bytes instead"),
     mkWorld [] [Some []] []).
Proof.
  apply (create_rejects_control_character openterm_manifest
           (lit "https://example.com/" ++ [0%N]) true (Some 0)
           (mkWorld [] [Some []] [])
           (PStr (lit "com.example.OpenTerm")) (PStr (lit "1.0.0"))).
  - reflexivity.
  - reflexivity.
  - reflexivity.
Defined.

Lemma create_rejects_unencodable_host_witness :
  create openterm_manifest (lit "https://example.com/" ++ [55296%N]) true
    (Some 0) (mkWorld [] [Some []] [])
  = (inl UnicodeEncodeError, mkWorld [] [Some []] []).
Proof.
  apply (create_rejects_unencodable_host openterm_manifest
           (lit "https://example.com/" ++ [55296%N]) true (Some 0)
           (mkWorld [] [Some []] [])
           (PStr (lit "com.example.OpenTerm")) (PStr (lit "1.0.0"))).
  - reflexivity.
  - reflexivity.
  - reflexivity.
  - reflexivity.
Defined.

Lemma create_returns_iff_writable_witness :
  (exists data,
      create openterm_manifest example_host true None empty_world
      = (inr data, empty_world))
  <-> writable example_host && writable (lit "com.example.OpenTerm")
      && writable (lit "1.0.0") && writable (appname openterm_manifest)
      = true.
Proof.
  apply (create_returns_iff_writable openterm_manifest example_host true
           empty_world (lit "com.example.OpenTerm") (lit "1.0.0")).
  - reflexivity.
  - reflexivity.
Defined.

Lemma create_tells_hosts_apart_witness :
  exists data,
    fst (create openterm_manifest
           (lit "https://example.com/a" ++ [13%N; 10%N]) true None
           empty_world) = inr data
    /\ fst (create openterm_manifest (lit "https://example.com/a" ++ [13%N])
              false None empty_world) = inr data
    /\ universal_newlines (lit "https://example.com/a" ++ [13%N; 10%N])
       = universal_newlines (lit "https://example.com/a" ++ [13%N]).
Proof.
  eexists. split; [vm_compute; reflexivity|].
  split; [vm_compute; reflexivity|].
  eapply (create_tells_hosts_apart openterm_manifest
            (lit "https://example.com/a" ++ [13%N; 10%N])
            (lit "https://example.com/a" ++ [13%N]) true false None None
            empty_world empty_world).
  - vm_compute. reflexivity.
  - vm_compute. reflexivity.
Defined.

Lemma create_keys_are_in_sorted_order_witness :
  exists data,
    fst (create openterm_manifest example_host true None empty_world)
    = inr data
    /\ dumps
         (manifest_document example_host (PStr (lit "com.example.OpenTerm"))
            (PStr (lit "1.0.0")) (appname openterm_manifest)) true
       = inr data.
Proof.
  eexists. split; [vm_compute; reflexivity|].
  apply (create_keys_are_in_sorted_order openterm_manifest example_host true
           None empty_world).
  - reflexivity.
  - reflexivity.
  - reflexivity.
  - reflexivity.
  - vm_compute. reflexivity.
Defined.

Lemma create_result_decodes_witness :
  exists data,
    fst (create openterm_manifest example_host true None empty_world)
    = inr data
    /\ exists text, decode_utf8 data = Some text.
Proof.
  eexists. split; [vm_compute; reflexivity|].
  apply (create_result_decodes openterm_manifest example_host true None
           empty_world).
  vm_compute. reflexivity.
Defined.

Lemma detected_name_is_written_verbatim_witness :
  exists data,
    fst (create openterm_object example_host true None (mkWorld [true] [] []))
    = inr data
    /\ exists url i v title,
         encode_utf8 (appname openterm_object) = inr title
         /\ data = manifest_xml url i v title.
Proof.
  eexists. split; [vm_compute; reflexivity|].
  apply (detected_name_is_written_verbatim ascii_only quoted
           (on_disk openterm_archive) (loads no_binary) (lit "OpenTerm.ipa")
           example_host true None empty_world (mkWorld [true] [] [])
           (mkWorld [true] [] []) openterm_object).
  - vm_compute. reflexivity.
  - vm_compute. reflexivity.
Defined.


